(** * NeoloadUtility: from cURL transcripts and Postman collections to an
    OpenAPI document

    A shallow embedding of [src/NeoloadUtility.py]: the request extractor
    [parse_curl], the schema inferrer [infer_json_schema], the aggregator
    [generate_openapi_json], and the two routes [generate] and
    [postman_to_openapi], followed by the properties of the design
    document that concern them.

    Modelling conventions.
    - A Python [str] is a [string]; the text model is ASCII (a character
      above 127 is never whitespace and has no other letter case).
    - A Python value that comes out of, or goes into, JSON is a [value].
      A [dict] is an association list in insertion order whose keys are
      kept unique by [dict_set].
    - A raised exception is the [Raise] case of [result]; statements run in
      sequence through [bind].
    - The library functions the program calls ([shlex.split], [json.loads],
      [urllib.parse.urlparse], [urllib.parse.parse_qs], [str]) are
      parameters of the program section, so every general theorem holds for
      any behaviour of theirs.  Module [Ref] gives executable reference
      versions, on which concrete transcripts are evaluated. *)

From Stdlib Require Import String Ascii List ZArith Bool Lia.
From Stdlib Require Import Decimal DecimalString DecimalNat.
From Stdlib Require Import SpecFloat.
Import ListNotations.
Local Open Scope list_scope.
Local Open Scope string_scope.

Set Implicit Arguments.
Set Warnings "-register-all".

(* ================================================================= *)
(** ** Exceptions *)

Inductive exn : Type :=
| ValueError
| JSONDecodeError
| TypeError
| AttributeError
| RecursionError.

Inductive result (A : Type) : Type :=
| Ok (a : A)
| Raise (e : exn).

Arguments Ok {A} a.
Arguments Raise {A} e.

Definition bind {A B : Type} (r : result A) (k : A -> result B) : result B :=
  match r with
  | Ok a => k a
  | Raise e => Raise e
  end.

Notation "x <- r ;; k" := (bind r (fun x => k))
  (at level 61, r at next level, right associativity).

Definition raises {A : Type} (r : result A) : bool :=
  match r with
  | Ok _ => false
  | Raise _ => true
  end.

(* ================================================================= *)
(** ** Python strings *)

Module Str.

Fixpoint map (f : ascii -> ascii) (s : string) : string :=
  match s with
  | EmptyString => EmptyString
  | String c r => String (f c) (map f r)
  end.

Definition between (lo hi : nat) (c : ascii) : bool :=
  let n := nat_of_ascii c in (lo <=? n)%nat && (n <=? hi)%nat.

Definition upper_char (c : ascii) : ascii :=
  if between 97 122 c then ascii_of_nat (nat_of_ascii c - 32) else c.

Definition lower_char (c : ascii) : ascii :=
  if between 65 90 c then ascii_of_nat (nat_of_ascii c + 32) else c.

(** [s.upper()] and [s.lower()]. *)
Definition upper : string -> string := map upper_char.
Definition lower : string -> string := map lower_char.

(** The ASCII characters for which [str.isspace] holds. *)
Definition is_space (c : ascii) : bool :=
  between 9 13 c || between 28 32 c.

Fixpoint lstrip_by (p : ascii -> bool) (s : string) : string :=
  match s with
  | EmptyString => EmptyString
  | String c r => if p c then lstrip_by p r else s
  end.

Fixpoint rstrip_by (p : ascii -> bool) (s : string) : string :=
  match s with
  | EmptyString => EmptyString
  | String c r =>
    match rstrip_by p r with
    | EmptyString => if p c then EmptyString else String c EmptyString
    | r' => String c r'
    end
  end.

Definition strip_by (p : ascii -> bool) (s : string) : string :=
  rstrip_by p (lstrip_by p s).

(** [s.strip()]. *)
Definition strip : string -> string := strip_by is_space.

(** [s.strip(chars)]. *)
Definition strip_chars (chars : list ascii) : string -> string :=
  strip_by (fun c => existsb (Ascii.eqb c) chars).

(** [s.replace(a, b)] for one-character [a] and [b]. *)
Definition replace (a b : ascii) : string -> string :=
  map (fun c => if Ascii.eqb c a then b else c).

(** [s.startswith(p)]. *)
Definition startswith (s p : string) : bool := String.prefix p s.

(** [s.partition(sep)] when [sep] occurs in [s]. *)
Fixpoint cut (sep : ascii) (s : string) : option (string * string) :=
  match s with
  | EmptyString => None
  | String c r =>
    if Ascii.eqb c sep then Some (EmptyString, r)
    else match cut sep r with
         | Some (a, b) => Some (String c a, b)
         | None => None
         end
  end.

(** [s.split(sep, 1)]: one element, or two when [sep] occurs. *)
Definition split1 (sep : ascii) (s : string) : list string :=
  match cut sep s with
  | Some (a, b) => [a; b]
  | None => [s]
  end.

(** [x in (a, b, ...)] for strings. *)
Definition mem (x : string) (xs : list string) : bool :=
  existsb (String.eqb x) xs.

(** An f-string: its pieces, concatenated. *)
Definition f (pieces : list string) : string := String.concat "" pieces.

(** [str(i)] and [f"{i}"] for an index. *)
Definition of_nat (i : nat) : string := NilEmpty.string_of_uint (Nat.to_uint i).

(** Truth value of a string: non-empty. *)
Definition truthy (s : string) : bool :=
  match s with
  | EmptyString => false
  | _ => true
  end.

(** [a or b] on strings. *)
Definition or_else (a b : string) : string := if truthy a then a else b.

End Str.

(* ================================================================= *)
(** ** Python values *)

(** The values [json.loads] returns and [jsonify] accepts.  A float is an
    IEEE 754 binary64 datum. *)
Inductive value : Type :=
| VNone
| VBool (b : bool)
| VInt (z : Z)
| VFloat (x : spec_float)
| VStr (s : string)
| VList (l : list value)
| VDict (d : list (string * value)).

Inductive pytype : Type := Tdict | Tlist | Tstr | Tint | Tfloat | Tbool | TNoneType.

Definition pytype_eqb (a b : pytype) : bool :=
  match a, b with
  | Tdict, Tdict | Tlist, Tlist | Tstr, Tstr | Tint, Tint
  | Tfloat, Tfloat | Tbool, Tbool | TNoneType, TNoneType => true
  | _, _ => false
  end.

Definition type_of (v : value) : pytype :=
  match v with
  | VNone => TNoneType
  | VBool _ => Tbool
  | VInt _ => Tint
  | VFloat _ => Tfloat
  | VStr _ => Tstr
  | VList _ => Tlist
  | VDict _ => Tdict
  end.

(** The class hierarchy of the built-in types involved: every class is its
    own subclass, and [bool] is a subclass of [int]. *)
Definition issubclass (a b : pytype) : bool :=
  pytype_eqb a b ||
  match a, b with
  | Tbool, Tint => true
  | _, _ => false
  end.

Definition isinstance (v : value) (t : pytype) : bool := issubclass (type_of v) t.

(** [bool(v)]. *)
Definition truthy (v : value) : bool :=
  match v with
  | VNone => false
  | VBool b => b
  | VInt z => negb (Z.eqb z 0)
  | VFloat (S754_zero _) => false
  | VFloat _ => true
  | VStr s => Str.truthy s
  | VList [] => false
  | VList _ => true
  | VDict [] => false
  | VDict _ => true
  end.

(* ================================================================= *)
(** ** Dictionaries *)

Definition dict (A : Type) : Type := list (string * A).

Fixpoint dict_get {A : Type} (d : dict A) (k : string) : option A :=
  match d with
  | [] => None
  | (k', v) :: r => if String.eqb k' k then Some v else dict_get r k
  end.

(** [d[k] = v]: the value of an existing key is replaced in place, a new
    key goes last. *)
Fixpoint dict_set {A : Type} (d : dict A) (k : string) (v : A) : dict A :=
  match d with
  | [] => [(k, v)]
  | (k', v') :: r => if String.eqb k' k then (k', v) :: r else (k', v') :: dict_set r k v
  end.

(** [d.get(k, default)]. *)
Definition dict_get_default {A : Type} (d : dict A) (k : string) (default : A) : A :=
  match dict_get d k with
  | Some v => v
  | None => default
  end.

Definition keys {A : Type} (d : dict A) : list string := List.map fst d.

(** [v.get(k, default)] on a value: only a [dict] has the method. *)
Definition get (v : value) (k : string) (default : value) : result value :=
  match v with
  | VDict d => Ok (dict_get_default d k default)
  | _ => Raise AttributeError
  end.

(** [v[k] = x] with a string key: item assignment succeeds on a [dict]
    only (a list wants an integer index, the other types support no item
    assignment at all). *)
Definition setitem (v : value) (k : string) (x : value) : result value :=
  match v with
  | VDict d => Ok (VDict (dict_set d k x))
  | _ => Raise TypeError
  end.

(* ================================================================= *)
(** ** The records of the program *)

(** The [details] dictionary of [parse_curl]: its four keys are set when it
    is created and never removed. *)
Module Details.

Record t : Type := mk {
  method : string;
  url : option string;
  headers : dict string;
  body : value
}.

Definition with_method (d : t) (m : string) : t := mk m (url d) (headers d) (body d).
Definition with_url (d : t) (u : string) : t := mk (method d) (Some u) (headers d) (body d).
Definition with_headers (d : t) (h : dict string) : t := mk (method d) (url d) h (body d).
Definition with_body (d : t) (b : value) : t := mk (method d) (url d) (headers d) b.

(** [details.get(k, default)]: the default is returned for a key that is
    not in the dictionary, and all four keys are. *)
Definition get (d : t) (k : string) (default : value) : value :=
  if String.eqb k "method" then VStr (method d)
  else if String.eqb k "url" then
    match url d with
    | Some u => VStr u
    | None => VNone
    end
  else if String.eqb k "headers" then
    VDict (List.map (fun kv => (fst kv, VStr (snd kv))) (headers d))
  else if String.eqb k "body" then body d
  else default.

(** [{'method': 'GET', 'url': None, 'headers': {}, 'body': None}] *)
Definition initial : t := mk "GET" None [] VNone.

End Details.

(** The six components [urlparse] returns. *)
Module Url.

Record t : Type := mk {
  scheme : string;
  netloc : string;
  path : string;
  params : string;
  query : string;
  fragment : string
}.

End Url.

(** The document under construction.  [openapi] and [info] are the same in
    every document; [paths] maps a path to its methods, a method to its
    operation. *)
Record openapi_spec : Type := mk_spec {
  openapi : string;
  info : dict value;
  servers : list value;
  paths : dict (dict value);
  schemas : dict value;
  securitySchemes : dict value
}.

(** The state of the loop of [generate_openapi_json]. *)
Record state : Type := mk_state {
  spec : openapi_spec;
  unique_servers : list string
}.

Definition lookup_operation (o : openapi_spec) (path method : string) : option value :=
  match dict_get (paths o) path with
  | Some methods => dict_get methods method
  | None => None
  end.

(** Every operation of the document, with its path and method. *)
Definition operations (o : openapi_spec) : list (string * string * value) :=
  flat_map (fun pm => List.map (fun mo => (fst pm, fst mo, snd mo)) (snd pm)) (paths o).

(* ================================================================= *)
(** ** Schema inference *)

Definition scalar_schema (name : string) : value := VDict [("type", VStr name)].

(** [infer_json_schema], branch for branch.  The two inner [match]es only
    open the container whose type the [isinstance] test has established. *)
Fixpoint infer_json_schema (data : value) : value :=
  if isinstance data Tdict then
    match data with
    | VDict d =>
      VDict [("type", VStr "object");
             ("properties",
              VDict (List.map (fun kv => (fst kv, infer_json_schema (snd kv))) d))]
    | _ => VNone
    end
  else if isinstance data Tlist then
    match data with
    | VList (x :: _) => VDict [("type", VStr "array"); ("items", infer_json_schema x)]
    | _ => VDict [("type", VStr "array"); ("items", VDict [])]
    end
  else if isinstance data Tstr then scalar_schema "string"
  else if isinstance data Tint then scalar_schema "integer"
  else if isinstance data Tfloat then scalar_schema "number"
  else if isinstance data Tbool then scalar_schema "boolean"
  else scalar_schema "object".

(* ================================================================= *)
(** ** Lines of a text *)

(** The ASCII characters at which [str.splitlines] breaks a line. *)
Definition is_linebreak (c : ascii) : bool := Str.between 10 13 c || Str.between 28 30 c.

(** [s.splitlines()], with [line] the part of the current line read so
    far: a carriage return followed by a line feed is one break, and the
    text after the last break is a line when it is not empty. *)
Fixpoint splitlines_from (s : string) (line : string) : list string :=
  match s with
  | EmptyString => if Str.truthy line then [line] else []
  | String c r =>
    if is_linebreak c then
      if Ascii.eqb c "013" then
        match r with
        | String c' r' =>
          if Ascii.eqb c' "010" then line :: splitlines_from r' EmptyString
          else line :: splitlines_from r EmptyString
        | EmptyString => line :: splitlines_from r EmptyString
        end
      else line :: splitlines_from r EmptyString
    else splitlines_from r (line ++ String c EmptyString)
  end.

Definition splitlines (s : string) : list string := splitlines_from s EmptyString.

(** [[line.strip() for line in text.splitlines() if line.strip()]] *)
Definition request_lines (file_content : string) : list string :=
  List.map Str.strip
    (filter (fun line => Str.truthy (Str.strip line)) (splitlines file_content)).

(* ================================================================= *)
(** ** The program *)

Section Program.

(** The library functions the program calls. *)

(** [shlex.split]: the tokens, or [ValueError] on an unterminated quote
    or a trailing escape. *)
Variable shlex_split : string -> result (list string).

(** [json.loads]: the value, or [JSONDecodeError] (or another exception,
    such as [RecursionError] on deep nesting). *)
Variable json_loads : string -> result value.

(** [urlparse]: the components, or [ValueError] (a malformed bracketed
    host). *)
Variable urlparse : string -> result Url.t.

(** [parse_qs]: each key, in order of first appearance, with its values,
    of which there is at least one. *)
Variable parse_qs : string -> list (string * (string * list string)).

(** [str] on a value that is not a string. *)
Variable py_str : value -> string.

(* --------------------------------------------------------------- *)
(** *** [parse_curl] *)

(** [-H]: [header_parts = arg.split(':', 1)], kept when there are two. *)
Definition header_step (arg : string) (d : Details.t) : Details.t :=
  match Str.split1 ":" arg with
  | [key; value] =>
    Details.with_headers d (dict_set (Details.headers d) (Str.strip key) (Str.strip value))
  | _ => d
  end.

(** [-d]: the argument parsed as JSON, or itself when it is not JSON. *)
Definition data_step (arg : string) (d : Details.t) : result Details.t :=
  match json_loads arg with
  | Ok v => Ok (Details.with_body d v)
  | Raise JSONDecodeError => Ok (Details.with_body d (VStr arg))
  | Raise e => Raise e
  end.

(** [-F]: [details['body'] = details.get('body', {})], then the pair is
    stored by item assignment on that body. *)
Definition form_step (arg : string) (d : Details.t) : result Details.t :=
  let d := Details.with_body d (Details.get d "body" (VDict [])) in
  match Str.split1 "=" arg with
  | [key; value] =>
    b <- setitem (Details.body d) key (VStr value) ;;
    Ok (Details.with_body d b)
  | _ => Ok d
  end.

(** The [while i < len(command_parts)] loop, on the tokens from the
    cursor on: [part] is [command_parts[i]], and [i + 1 <
    len(command_parts)] holds when a token follows it. *)
Fixpoint parse_curl_loop (command_parts : list string) (d : Details.t)
  : result Details.t :=
  match command_parts with
  | [] => Ok d
  | part :: rest =>
    match rest with
    | arg :: rest' =>
      if Str.mem part ["-X"; "--request"] then
        parse_curl_loop rest' (Details.with_method d (Str.upper arg))
      else if Str.mem part ["-H"; "--header"] then
        parse_curl_loop rest' (header_step arg d)
      else if Str.mem part ["-d"; "--data"; "--data-raw"; "--data-binary"] then
        d' <- data_step arg d ;; parse_curl_loop rest' d'
      else if Str.mem part ["-F"; "--form"] then
        d' <- form_step arg d ;; parse_curl_loop rest' d'
      else if Str.startswith part "http" then
        parse_curl_loop rest (Details.with_url d part)
      else parse_curl_loop rest d
    | [] =>
      if Str.startswith part "http" then
        parse_curl_loop rest (Details.with_url d part)
      else parse_curl_loop rest d
    end
  end.

Definition parse_curl_tokens (command_parts : list string) : result Details.t :=
  parse_curl_loop command_parts Details.initial.

Definition parse_curl (curl_command : string) : result Details.t :=
  command_parts <- shlex_split curl_command ;;
  parse_curl_tokens command_parts.

(* --------------------------------------------------------------- *)
(** *** [generate_openapi_json] *)

Definition string_schema : value := VDict [("type", VStr "string")].

Definition query_parameter (kv : string * (string * list string)) : value :=
  VDict [("name", VStr (fst kv)); ("in", VStr "query"); ("required", VBool false);
         ("schema", string_schema); ("example", VStr (fst (snd kv)))].

Definition header_parameter (header value : string) :=
  VDict [("name", VStr header); ("in", VStr "header"); ("required", VBool false);
         ("schema", string_schema); ("example", VStr value)].

(** [path_details.setdefault("parameters", []).append(x)]; the key only
    ever holds a list. *)
Definition append_parameter (path_details : dict value) (x : value) : dict value :=
  match dict_get path_details "parameters" with
  | Some (VList l) => dict_set path_details "parameters" (VList (l ++ [x])%list)
  | Some _ => path_details
  | None => dict_set path_details "parameters" (VList [x])
  end.

Definition operation_id (method path : string) (i : nat) : string :=
  Str.f [method; "_";
         Str.or_else (Str.strip_chars ["_"%char] (Str.replace "/" "_" path)) "root";
         "_"; Str.of_nat i].

(** [openapi_spec['paths'][path][method] = path_details], where [paths]
    is a [defaultdict(dict)]. *)
Definition set_operation (ps : dict (dict value)) (path method : string)
    (path_details : value) : dict (dict value) :=
  dict_set ps path (dict_set (dict_get_default ps path []) method path_details).

(** The four blocks of the loop body that fill [path_details], in the
    order of the source, and then the loop body itself. *)

(** [# query params] *)
Definition add_query_parameters (query_params : list (string * (string * list string)))
    (path_details : dict value) : dict value :=
  match query_params with
  | [] => path_details
  | _ => dict_set path_details "parameters" (VList (List.map query_parameter query_params))
  end.

(** [# headers] *)
Definition add_header_parameters (headers : dict string) (path_details : dict value)
  : dict value :=
  fold_left
    (fun pd hv =>
       if negb (Str.mem (Str.lower (fst hv)) ["content-type"; "authorization"])
       then append_parameter pd (header_parameter (fst hv) (snd hv))
       else pd)
    headers path_details.

Definition http_scheme (scheme : string) : value :=
  VDict [("type", VStr "http"); ("scheme", VStr scheme)].

(** [# auth]: the security schemes and [path_details] after the block. *)
Definition add_security (headers : dict string) (securitySchemes : dict value)
    (path_details : dict value) : dict value * dict value :=
  let auth_header := dict_get headers "Authorization" in
  match auth_header with
  | Some a =>
    if Str.truthy a then
      if Str.startswith (Str.lower a) "bearer " then
        (dict_set securitySchemes "BearerAuth" (http_scheme "bearer"),
         dict_set path_details "security" (VList [VDict [("BearerAuth", VList [])]]))
      else if Str.startswith (Str.lower a) "basic " then
        (dict_set securitySchemes "BasicAuth" (http_scheme "basic"),
         dict_set path_details "security" (VList [VDict [("BasicAuth", VList [])]]))
      else (securitySchemes, path_details)
    else (securitySchemes, path_details)
  | None => (securitySchemes, path_details)
  end.

Definition request_body (content_type : string) (schema : value) : value :=
  VDict [("required", VBool true);
         ("content", VDict [(content_type, VDict [("schema", schema)])])].

(** [# body]: the schemas and [path_details] after the block. *)
Definition add_request_body (parsed_data : Details.t) (operation_id : string)
    (schemas : dict value) (path_details : dict value) : dict value * dict value :=
  let body_content := Details.body parsed_data in
  if truthy body_content then
    let schema_name := Str.f ["Schema_"; operation_id] in
    let content_type :=
      dict_get_default (Details.headers parsed_data) "Content-Type" "application/json" in
    if String.eqb content_type "application/json" && isinstance body_content Tdict then
      (dict_set schemas schema_name (infer_json_schema body_content),
       dict_set path_details "requestBody"
         (request_body content_type
            (VDict [("$ref", VStr (Str.f ["#/components/schemas/"; schema_name]))])))
    else
      (schemas,
       dict_set path_details "requestBody" (request_body content_type string_schema))
  else (schemas, path_details).

Definition process_request (i : nat) (req : string) (st : state) : result state :=
  if negb (Str.truthy (Str.strip req)) then Ok st
  else
    parsed_data <- parse_curl req ;;
    match Details.url parsed_data with
    | None => Ok st
    | Some u =>
      if negb (Str.truthy u) then Ok st
      else
        url_parts <- urlparse u ;;
        let o := spec st in
        let server_url := Str.f [Url.scheme url_parts; "://"; Url.netloc url_parts] in
        let new_server := negb (Str.mem server_url (unique_servers st)) in
        let servers1 :=
          if new_server then (servers o ++ [VDict [("url", VStr server_url)]])%list
          else servers o in
        let unique_servers1 :=
          if new_server then (unique_servers st ++ [server_url])%list
          else unique_servers st in
        let path := Str.or_else (Url.path url_parts) "/" in
        let method := Str.lower (Details.method parsed_data) in
        let headers := Details.headers parsed_data in
        let operation_id := operation_id method path i in
        let path_details : dict value :=
          [("summary", VStr (Str.f [Details.method parsed_data; " "; path]));
           ("operationId", VStr operation_id);
           ("servers", VList [VDict [("url", VStr server_url)]]);
           ("responses",
            VDict [("200", VDict [("description", VStr "Successful response")])])] in
        let path_details :=
          add_query_parameters (parse_qs (Url.query url_parts)) path_details in
        let path_details := add_header_parameters headers path_details in
        let '(securitySchemes1, path_details) :=
          add_security headers (securitySchemes o) path_details in
        let '(schemas1, path_details) :=
          add_request_body parsed_data operation_id (schemas o) path_details in
        Ok (mk_state
              (mk_spec (openapi o) (info o) servers1
                 (set_operation (paths o) path method (VDict path_details))
                 schemas1 securitySchemes1)
              unique_servers1)
    end.

Fixpoint process_requests (i : nat) (requests : list string) (st : state)
  : result state :=
  match requests with
  | [] => Ok st
  | req :: rest => st' <- process_request i req st ;; process_requests (S i) rest st'
  end.

Definition initial_spec : openapi_spec :=
  mk_spec "3.0.0"
    [("title", VStr "Generated API Specification"); ("version", VStr "1.0.0")]
    [] [] [] [].

Definition generate_openapi_json (requests : list string) : result openapi_spec :=
  st <- process_requests 0 requests (mk_state initial_spec []) ;;
  Ok (spec st).

(* --------------------------------------------------------------- *)
(** *** The route [/generate_openapi] *)

(** What a route answers: a document or another JSON value, with the
    HTTP status.  An exception that leaves a route is the [Raise] case of
    its result. *)
Inductive payload : Type :=
| Document (o : openapi_spec)
| Json (v : value).

Definition response : Type := (payload * nat)%type.

Definition error (message : string) : payload := Json (VDict [("error", VStr message)]).

(** The strings a list starts with, and what follows them. *)
Fixpoint leading_strings (l : list value) : list string * list value :=
  match l with
  | VStr s :: r => let '(ss, rest) := leading_strings r in (s :: ss, rest)
  | _ => ([], l)
  end.

(** [generate].  The aggregator calls [req.strip()] on each element in
    turn, so on a list that holds something other than a string it
    processes the strings before it and then raises [AttributeError]. *)
Definition generate (data : value) : result response :=
  requests_list <- get data "requests" (VList []) ;;
  if negb (isinstance requests_list Tlist) then
    Ok (error "Input must be a list", 400)
  else
    match requests_list with
    | VList l =>
      match leading_strings l with
      | (requests, []) =>
        o <- generate_openapi_json requests ;; Ok (Document o, 200)
      | (requests, _ :: _) =>
        _ <- generate_openapi_json requests ;; Raise AttributeError
      end
    | _ => Raise TypeError
    end.

(* --------------------------------------------------------------- *)
(** *** The routes [/validate_curl] and [/upload_curl_file] *)

(** [validate_curl].  A command that is truthy and not a string reaches
    [shlex.split], which reads from it as from a stream and raises
    [AttributeError]. *)
Definition validate_curl (data : value) : result response :=
  curl_command <- get data "command" (VStr EmptyString) ;;
  if negb (truthy curl_command) then Ok (error "No cURL command provided", 400)
  else
    match curl_command with
    | VStr s =>
      parsed_data <- parse_curl s ;;
      if negb (truthy (Details.get parsed_data "url" VNone))
      then Ok (error "URL not found", 400)
      else Ok (Json (VDict [("message", VStr "cURL command is valid!")]), 200)
    | _ => Raise AttributeError
    end.

(** [upload_curl_file], on the decoded text of the uploaded file, or on
    [None] when the request has no [file] part. *)
Definition upload_curl_file (file : option string) : result response :=
  match file with
  | None => Ok (error "No file uploaded", 400)
  | Some file_content =>
    let requests_list := request_lines file_content in
    o <- generate_openapi_json requests_list ;; Ok (Document o, 200)
  end.

(* --------------------------------------------------------------- *)
(** *** The route [/postman_to_openapi] *)

(** [for x in v]: the elements of a list, the keys of a dict, the
    characters of a string; nothing else is iterable. *)
Definition iter (v : value) : result (list value) :=
  match v with
  | VList l => Ok l
  | VDict d => Ok (List.map VStr (keys d))
  | VStr s => Ok (List.map (fun c => VStr (String c EmptyString)) (list_ascii_of_string s))
  | _ => Raise TypeError
  end.

(** [v.lower()]: a method of strings only. *)
Definition lower_of (v : value) : result string :=
  match v with
  | VStr s => Ok (Str.lower s)
  | _ => Raise AttributeError
  end.

Fixpoint strings_of (l : list value) : result (list string) :=
  match l with
  | [] => Ok []
  | VStr s :: r => ss <- strings_of r ;; Ok (s :: ss)
  | _ :: _ => Raise TypeError
  end.

(** ["/".join(v)]. *)
Definition join (sep : string) (v : value) : result string :=
  items <- iter v ;;
  ss <- strings_of items ;;
  Ok (String.concat sep ss).

(** [v == "raw"]. *)
Definition is_str (v : value) (s : string) : bool :=
  match v with
  | VStr s' => String.eqb s' s
  | _ => false
  end.

(** [urlparse(v)], which rejects what is not a string. *)
Definition urlparse_value (v : value) : result Url.t :=
  match v with
  | VStr s => urlparse s
  | _ => Raise TypeError
  end.

(** [json.loads(v)], which rejects what is not a string. *)
Definition json_loads_value (v : value) : result value :=
  match v with
  | VStr s => json_loads s
  | _ => Raise TypeError
  end.

(** [s["url"] for s in openapi_spec["servers"]]; every server is a dict
    with that one key. *)
Definition server_urls (l : list value) : list value :=
  List.map (fun s => match s with
                     | VDict d => dict_get_default d "url" VNone
                     | _ => VNone
                     end) l.

(** One entry of [query_params]. *)
Definition postman_query_parameter (q : value) : result value :=
  key <- get q "key" (VStr "") ;;
  disabled <- get q "disabled" (VBool false) ;;
  example <- get q "value" (VStr "") ;;
  Ok (VDict [("name", key); ("in", VStr "query");
             ("required", VBool (negb (truthy disabled)));
             ("schema", string_schema); ("example", example)]).

Fixpoint postman_query_parameters (qs : list value) : result (list value) :=
  match qs with
  | [] => Ok []
  | q :: r =>
    x <- postman_query_parameter q ;;
    xs <- postman_query_parameters r ;;
    Ok (x :: xs)
  end.

(** One step of [for h in headers]. *)
Definition postman_header_step (h : value) (operation : dict value)
  : result (dict value) :=
  key <- get h "key" VNone ;;
  if truthy key then
    lowered <- lower_of key ;;
    if negb (Str.mem lowered ["content-type"; "authorization"]) then
      example <- get h "value" (VStr "") ;;
      Ok (append_parameter operation
            (VDict [("name", key); ("in", VStr "header"); ("required", VBool false);
                    ("schema", string_schema); ("example", example)]))
    else Ok operation
  else Ok operation.

Fixpoint postman_header_steps (hs : list value) (operation : dict value)
  : result (dict value) :=
  match hs with
  | [] => Ok operation
  | h :: r =>
    operation' <- postman_header_step h operation ;;
    postman_header_steps r operation'
  end.

(** The blocks of the loop body of [postman_to_openapi], in the order of
    the source, and then the loop body itself. *)

(** [# URL & path]: [raw_url], [path] and [query_params]. *)
Definition locate (url_info : value) : result (value * string * value) :=
  if isinstance url_info Tdict then
    raw_url <- get url_info "raw" (VStr "") ;;
    segments <- get url_info "path" (VList []) ;;
    joined <- join "/" segments ;;
    query_params <- get url_info "query" (VList []) ;;
    Ok (raw_url, Str.f ["/"; joined], query_params)
  else
    Ok (VStr (match url_info with
              | VStr s => s
              | _ => py_str url_info
              end), "/", VList []).

(** [# Add server]: the servers after the block. *)
Definition add_server (raw_url : value) (servers : list value) : result (list value) :=
  if truthy raw_url then
    parsed_url <- urlparse_value raw_url ;;
    let server_url := Str.f [Url.scheme parsed_url; "://"; Url.netloc parsed_url] in
    if Str.truthy server_url
       && negb (existsb (fun x => is_str x server_url) (server_urls servers))
    then Ok (servers ++ [VDict [("url", VStr server_url)]])%list
    else Ok servers
  else Ok servers.

(** [# Query params] *)
Definition postman_add_query (query_params : value) (operation : dict value)
  : result (dict value) :=
  if truthy query_params then
    qs <- iter query_params ;;
    entries <- postman_query_parameters qs ;;
    Ok (dict_set operation "parameters" (VList entries))
  else Ok operation.

(** [# Headers] *)
Definition postman_add_headers (request_data : value) (operation : dict value)
  : result (dict value) :=
  headers <- get request_data "header" (VList []) ;;
  hs <- iter headers ;;
  postman_header_steps hs operation.

(** [# Body]: the schemas and the operation after the block. *)
Definition postman_add_body (request_data : value) (method : string) (idx : nat)
    (schemas : dict value) (operation : dict value)
  : result (dict value * dict value) :=
  body <- get request_data "body" (VDict []) ;;
  is_raw <-
    (if truthy body then mode <- get body "mode" VNone ;; Ok (is_str mode "raw")
     else Ok false) ;;
  if is_raw then
    raw <- get body "raw" (VStr "") ;;
    match json_loads_value raw with
    | Ok parsed_json =>
      let schema := infer_json_schema parsed_json in
      let schema_name := Str.f ["Schema_"; method; "_"; Str.of_nat idx] in
      Ok (dict_set schemas schema_name schema,
          dict_set operation "requestBody"
            (request_body "application/json"
               (VDict [("$ref", VStr (Str.f ["#/components/schemas/"; schema_name]))])))
    | Raise _ =>
      Ok (schemas,
          dict_set operation "requestBody" (request_body "text/plain" string_schema))
    end
  else Ok (schemas, operation).

Definition postman_item (idx : nat) (item : value) (o : openapi_spec)
  : result openapi_spec :=
  request_data <- get item "request" (VDict []) ;;
  if negb (truthy request_data) then Ok o
  else
    url_info <- get request_data "url" (VDict []) ;;
    located <- locate url_info ;;
    let '(raw_url, path, query_params) := located in
    m <- get request_data "method" (VStr "GET") ;;
    method <- lower_of m ;;
    summary <- get item "name" (VStr (Str.f ["Request "; Str.of_nat (idx + 1)])) ;;
    servers1 <- add_server raw_url (servers o) ;;
    let operation : dict value :=
      [("summary", summary);
       ("responses",
        VDict [("200", VDict [("description", VStr "Successful response")])])] in
    operation <- postman_add_query query_params operation ;;
    operation <- postman_add_headers request_data operation ;;
    stored <- postman_add_body request_data method idx (schemas o) operation ;;
    let '(schemas1, operation) := stored in
    Ok (mk_spec (openapi o) (info o) servers1
          (set_operation (paths o) path method (VDict operation))
          schemas1 (securitySchemes o)).

Fixpoint postman_items (idx : nat) (items : list value) (o : openapi_spec)
  : result openapi_spec :=
  match items with
  | [] => Ok o
  | item :: rest => o' <- postman_item idx item o ;; postman_items (S idx) rest o'
  end.

(** The [try] block of [postman_to_openapi].  The document of this route
    has no [securitySchemes] under [components]: the field stays empty. *)
Definition postman_convert (data : value) : result response :=
  collection <- get data "collection" (VDict []) ;;
  if negb (truthy collection) then
    Ok (error "Invalid or empty Postman collection", 400)
  else
    info1 <- get collection "info" (VDict []) ;;
    title <- get info1 "name" (VStr "Converted Postman Collection") ;;
    info2 <- get collection "info" (VDict []) ;;
    version <- get info2 "version" (VStr "1.0.0") ;;
    let openapi_spec :=
      mk_spec "3.0.0" [("title", title); ("version", version)] [] [] [] [] in
    item <- get collection "item" (VList []) ;;
    items <- iter item ;;
    o <- postman_items 0 items openapi_spec ;;
    Ok (Document o, 200).

(** [postman_to_openapi]: [except Exception] turns whatever the block
    raises into a 500 answer (whose message also quotes the exception's
    text, which is left out here). *)
Definition postman_to_openapi (data : value) : response :=
  match postman_convert data with
  | Ok r => r
  | Raise _ => (error "Failed to convert Postman", 500)
  end.

End Program.

(* ================================================================= *)
(** ** Reference versions of the library functions *)

Module Ref.

Definition dquote : ascii := "034"%char.
Definition squote : ascii := "039"%char.
Definition backslash : ascii := "092"%char.

Definition in_chars (c : ascii) (cs : list ascii) : bool := existsb (Ascii.eqb c) cs.

Definition push (token : string) (c : ascii) : string := token ++ String c EmptyString.

(* --------------------------------------------------------------- *)
(** *** [shlex.split]

    The lexer of [shlex.py] as [split] sets it up: POSIX mode,
    [whitespace_split], no comment characters, no punctuation characters.
    [read] is [read_token] run to the end of the input: one character at a
    time, in the state the lexer is in, with the token read so far and
    whether a quote was seen in it. *)

Inductive lexer_state : Type :=
| Blank                          (* state [' '] *)
| Word                           (* state ['a'] *)
| Quoted (q : ascii)             (* the state is the open quote *)
| Escaped (back : option ascii). (* the state is the backslash; [escapedstate]
                                    is ['a'], or the quote it stands in *)

Definition whitespace : list ascii := [" "; "009"; "013"; "010"]%char.
Definition quotes : list ascii := [squote; dquote].
Definition escape : list ascii := [backslash].
Definition escapedquotes : list ascii := [dquote].

(** A token ends: it is kept when it is not empty or was quoted. *)
Definition emit (token : string) (quoted : bool) (out : list string) : list string :=
  if Str.truthy token || quoted then (out ++ [token])%list else out.

Fixpoint read (cs : list ascii) (state : lexer_state) (token : string)
    (quoted : bool) (out : list string) : result (list string) :=
  match cs with
  | [] =>
    match state with
    | Blank | Word => Ok (emit token quoted out)
    | Quoted _ => Raise ValueError    (* No closing quotation *)
    | Escaped _ => Raise ValueError   (* No escaped character *)
    end
  | nextchar :: cs' =>
    match state with
    | Blank =>
      if in_chars nextchar whitespace then
        if Str.truthy token || quoted
        then read cs' Blank EmptyString false (out ++ [token])%list
        else read cs' Blank token quoted out
      else if in_chars nextchar escape then read cs' (Escaped None) token quoted out
      else if in_chars nextchar quotes then read cs' (Quoted nextchar) token quoted out
      else read cs' Word (String nextchar EmptyString) quoted out
    | Quoted q =>
      if Ascii.eqb nextchar q then read cs' Word token true out
      else if in_chars nextchar escape && in_chars q escapedquotes
      then read cs' (Escaped (Some q)) token true out
      else read cs' (Quoted q) (push token nextchar) true out
    | Escaped back =>
      match back with
      | Some q =>
        let token :=
          if negb (Ascii.eqb nextchar backslash) && negb (Ascii.eqb nextchar q)
          then push token backslash else token in
        read cs' (Quoted q) (push token nextchar) quoted out
      | None => read cs' Word (push token nextchar) quoted out
      end
    | Word =>
      if in_chars nextchar whitespace then
        if Str.truthy token || quoted
        then read cs' Blank EmptyString false (out ++ [token])%list
        else read cs' Blank token quoted out
      else if in_chars nextchar quotes then read cs' (Quoted nextchar) token quoted out
      else if in_chars nextchar escape then read cs' (Escaped None) token quoted out
      else read cs' Word (push token nextchar) quoted out
    end
  end.

Definition shlex_split (s : string) : result (list string) :=
  read (list_ascii_of_string s) Blank EmptyString false [].

(* --------------------------------------------------------------- *)
(** *** [json.loads]

    The decoder of the [json] package with its default settings.  [None]
    stands for [JSONDecodeError].  A [\u] escape below 256 is the character
    of that code; the text model has no other. *)

Definition is_digit (c : ascii) : bool := Str.between 48 57 c.

Definition digit_value (c : ascii) : Z := Z.of_nat (nat_of_ascii c) - 48.

Fixpoint skip_ws (cs : list ascii) : list ascii :=
  match cs with
  | c :: r => if in_chars c whitespace then skip_ws r else cs
  | [] => []
  end.

(** The digits [cs] starts with, as a number and a count, and the rest. *)
Fixpoint digits (cs : list ascii) (acc : Z) (n : Z) : Z * Z * list ascii :=
  match cs with
  | c :: r => if is_digit c then digits r (10 * acc + digit_value c) (n + 1) else (acc, n, cs)
  | [] => (acc, n, [])
  end.

Definition hex_value (c : ascii) : option N :=
  let n := N_of_ascii c in
  if Str.between 48 57 c then Some (n - 48)%N
  else if Str.between 97 102 c then Some (n - 87)%N
  else if Str.between 65 70 c then Some (n - 55)%N
  else None.

(** [float(text)] for the decimal [m * 10 ^ e], rounded to the nearest
    binary64, ties to even. *)
Definition float_of_decimal (negative : bool) (m : Z) (e : Z) : spec_float :=
  match m with
  | Zpos p =>
    if (0 <=? e)%Z then
      binary_normalize 53 1024 ((if negative then Z.opp m else m) * 10 ^ e) 0 negative
    else
      SFdiv 53 1024 (S754_finite negative p 0) (S754_finite false (Z.to_pos (10 ^ (- e))) 0)
  | _ => S754_zero negative
  end.

(** [NUMBER_RE]: an integer part, then a fraction and an exponent when
    they are complete. *)
Definition scan_number (cs : list ascii) : option (value * list ascii) :=
  let '(negative, body) :=
    match cs with
    | "-"%char :: r => (true, r)
    | _ => (false, cs)
    end in
  let integer :=
    match body with
    | "0"%char :: r => Some (0%Z, r)
    | c :: _ => if is_digit c then let '(m, _, r) := digits body 0 0 in Some (m, r) else None
    | [] => None
    end in
  match integer with
  | None => None
  | Some (m, r) =>
    let '(m1, fraction_digits, r1, has_fraction) :=
      match r with
      | "."%char :: c :: r' =>
        if is_digit c then let '(m', n, r2) := digits (c :: r') m 0 in (m', n, r2, true)
        else (m, 0%Z, r, false)
      | _ => (m, 0%Z, r, false)
      end in
    let exponent_of (negative_exponent : bool) (ds : list ascii) :=
      match ds with
      | c :: _ =>
        if is_digit c then
          let '(x, _, r2) := digits ds 0 0 in
          Some (if negative_exponent then Z.opp x else x, r2)
        else None
      | [] => None
      end in
    let exponent :=
      match r1 with
      | c :: r' =>
        if in_chars c ["e"; "E"]%char then
          match r' with
          | "-"%char :: ds => exponent_of true ds
          | "+"%char :: ds => exponent_of false ds
          | _ => exponent_of false r'
          end
        else None
      | [] => None
      end in
    match exponent with
    | Some (x, r2) => Some (VFloat (float_of_decimal negative m1 (x - fraction_digits)), r2)
    | None =>
      if has_fraction then Some (VFloat (float_of_decimal negative m1 (- fraction_digits)), r1)
      else Some (VInt (if negative then Z.opp m1 else m1), r1)
    end
  end.

(** [scanstring], after the opening quote. *)
Fixpoint scan_string (cs : list ascii) (acc : string) : option (string * list ascii) :=
  match cs with
  | [] => None
  | c :: r =>
    if Ascii.eqb c dquote then Some (acc, r)
    else if Ascii.eqb c backslash then
      match r with
      | "u"%char :: h1 :: h2 :: h3 :: h4 :: r' =>
        match hex_value h1, hex_value h2, hex_value h3, hex_value h4 with
        | Some a, Some b, Some c3, Some d =>
          let code := (((a * 16 + b) * 16 + c3) * 16 + d)%N in
          if (code <? 256)%N then scan_string r' (push acc (ascii_of_N code))
          else scan_string r'
                 (acc ++ String backslash (String "u" (String h1 (String h2
                    (String h3 (String h4 EmptyString))))))
        | _, _, _, _ => None
        end
      | e :: r' =>
        let plain (x : ascii) := scan_string r' (push acc x) in
        if Ascii.eqb e dquote then plain dquote
        else if Ascii.eqb e backslash then plain backslash
        else if Ascii.eqb e "/" then plain "/"%char
        else if Ascii.eqb e "b" then plain "008"%char
        else if Ascii.eqb e "f" then plain "012"%char
        else if Ascii.eqb e "n" then plain "010"%char
        else if Ascii.eqb e "r" then plain "013"%char
        else if Ascii.eqb e "t" then plain "009"%char
        else None
      | [] => None
      end
    else if Str.between 0 31 c then None
    else scan_string r (push acc c)
  end.

Definition starts (prefix : string) (cs : list ascii) : option (list ascii) :=
  let n := String.length prefix in
  if String.eqb (string_of_list_ascii (firstn n cs)) prefix then Some (skipn n cs) else None.

(** [scan_once], [JSONObject] and [JSONArray]; [fuel] bounds the depth of
    the calls, which the length of the text bounds. *)
Fixpoint scan_once (fuel : nat) (cs : list ascii) : option (value * list ascii) :=
  match fuel with
  | O => None
  | S fuel =>
    match cs with
    | [] => None
    | c :: r =>
      if Ascii.eqb c dquote then
        match scan_string r EmptyString with
        | Some (s, r') => Some (VStr s, r')
        | None => None
        end
      else if Ascii.eqb c "{" then
        match skip_ws r with
        | "}"%char :: r' => Some (VDict [], r')
        | r' => scan_members fuel r' []
        end
      else if Ascii.eqb c "[" then
        match skip_ws r with
        | "]"%char :: r' => Some (VList [], r')
        | r' => scan_elements fuel r' []
        end
      else
        match starts "null" cs, starts "true" cs, starts "false" cs with
        | Some r', _, _ => Some (VNone, r')
        | _, Some r', _ => Some (VBool true, r')
        | _, _, Some r' => Some (VBool false, r')
        | None, None, None =>
          match scan_number cs with
          | Some found => Some found
          | None =>
            match starts "NaN" cs, starts "Infinity" cs, starts "-Infinity" cs with
            | Some r', _, _ => Some (VFloat S754_nan, r')
            | _, Some r', _ => Some (VFloat (S754_infinity false), r')
            | _, _, Some r' => Some (VFloat (S754_infinity true), r')
            | None, None, None => None
            end
          end
        end
    end
  end

with scan_members (fuel : nat) (cs : list ascii) (acc : dict value)
  : option (value * list ascii) :=
  match fuel with
  | O => None
  | S fuel =>
    match cs with
    | c :: r =>
      if Ascii.eqb c dquote then
        match scan_string r EmptyString with
        | Some (key, r1) =>
          match skip_ws r1 with
          | ":"%char :: r2 =>
            match scan_once fuel (skip_ws r2) with
            | Some (v, r3) =>
              let acc := dict_set acc key v in
              match skip_ws r3 with
              | "}"%char :: r4 => Some (VDict acc, r4)
              | ","%char :: r4 => scan_members fuel (skip_ws r4) acc
              | _ => None
              end
            | None => None
            end
          | _ => None
          end
        | None => None
        end
      else None
    | [] => None
    end
  end

with scan_elements (fuel : nat) (cs : list ascii) (acc : list value)
  : option (value * list ascii) :=
  match fuel with
  | O => None
  | S fuel =>
    match scan_once fuel cs with
    | Some (v, r) =>
      let acc := (acc ++ [v])%list in
      match skip_ws r with
      | "]"%char :: r' => Some (VList acc, r')
      | ","%char :: r' => scan_elements fuel (skip_ws r') acc
      | _ => None
      end
    | None => None
    end
  end.

Definition json_loads (s : string) : result value :=
  let cs := list_ascii_of_string s in
  match scan_once (2 * List.length cs + 2) (skip_ws cs) with
  | Some (v, r) =>
    match skip_ws r with
    | [] => Ok v
    | _ => Raise JSONDecodeError   (* Extra data *)
    end
  | None => Raise JSONDecodeError
  end.

(* --------------------------------------------------------------- *)
(** *** [urllib.parse.urlparse]

    [urlsplit] followed by the split of the path parameters.  A host in
    brackets is accepted as it stands when both brackets are there. *)

Definition is_alpha (c : ascii) : bool := Str.between 65 90 c || Str.between 97 122 c.

Definition scheme_char (c : ascii) : bool :=
  is_alpha c || is_digit c || in_chars c ["+"; "-"; "."]%char.

Fixpoint all_chars (p : ascii -> bool) (s : string) : bool :=
  match s with
  | EmptyString => true
  | String c r => p c && all_chars p r
  end.

Fixpoint remove_chars (p : ascii -> bool) (s : string) : string :=
  match s with
  | EmptyString => EmptyString
  | String c r => if p c then remove_chars p r else String c (remove_chars p r)
  end.

Definition contains (s : string) (c : ascii) : bool :=
  match Str.cut c s with
  | Some _ => true
  | None => false
  end.

(** The text before the first character that satisfies [p], and the text
    from it on. *)
Fixpoint break (p : ascii -> bool) (s : string) : string * string :=
  match s with
  | EmptyString => (EmptyString, EmptyString)
  | String c r => if p c then (EmptyString, s) else let '(a, b) := break p r in (String c a, b)
  end.

(** The text up to the last [sep], and the text from it on. *)
Fixpoint rbreak (sep : ascii) (s : string) : option (string * string) :=
  match s with
  | EmptyString => None
  | String c r =>
    match rbreak sep r with
    | Some (a, b) => Some (String c a, b)
    | None => if Ascii.eqb c sep then Some (EmptyString, s) else None
    end
  end.

Definition uses_params : list string :=
  [""; "ftp"; "hdl"; "prospero"; "http"; "imap"; "https"; "shttp"; "rtsp"; "rtspu";
   "sip"; "sips"; "mms"; "sftp"; "tel"].

Definition splitparams (url : string) : string * string :=
  match rbreak "/" url with
  | Some (head, tail) =>
    match Str.cut ";" tail with
    | Some (a, b) => (head ++ a, b)
    | None => (url, EmptyString)
    end
  | None =>
    match Str.cut ";" url with
    | Some (a, b) => (a, b)
    | None => (url, EmptyString)
    end
  end.

Definition urlparse (url : string) : result Url.t :=
  let url := Str.lstrip_by (Str.between 0 32) url in
  let url := remove_chars (fun c => in_chars c ["009"; "013"; "010"]%char) url in
  let '(scheme, url) :=
    match Str.cut ":" url with
    | Some (String c r as before, after) =>
      if is_alpha c && all_chars scheme_char before then (Str.lower before, after)
      else (EmptyString, url)
    | _ => (EmptyString, url)
    end in
  located <-
    match url with
    | String "/" (String "/" r) =>
      let '(netloc, rest) := break (fun c => in_chars c ["/"; "?"; "#"]%char) r in
      if negb (Bool.eqb (contains netloc "[") (contains netloc "]"))
      then Raise ValueError   (* Invalid IPv6 URL *)
      else Ok (netloc, rest)
    | _ => Ok (EmptyString, url)
    end ;;
  let '(netloc, url) := located in
  let '(url, fragment) :=
    match Str.cut "#" url with
    | Some (a, b) => (a, b)
    | None => (url, EmptyString)
    end in
  let '(url, query) :=
    match Str.cut "?" url with
    | Some (a, b) => (a, b)
    | None => (url, EmptyString)
    end in
  let '(url, params) :=
    if Str.mem scheme uses_params && contains url ";" then splitparams url
    else (url, EmptyString) in
  Ok (Url.mk scheme netloc url params query fragment).

(* --------------------------------------------------------------- *)
(** *** [urllib.parse.parse_qs]

    With its defaults: fields are separated by [&], a field with no [=] or
    with an empty value is dropped, [+] is a space, and a percent escape is
    the character of its code. *)

Fixpoint split_on (sep : ascii) (s : string) (current : string) : list string :=
  match s with
  | EmptyString => [current]
  | String c r =>
    if Ascii.eqb c sep then current :: split_on sep r EmptyString
    else split_on sep r (push current c)
  end.

Fixpoint unquote (s : string) : string :=
  match s with
  | String "%" (String h1 (String h2 r) as rest) =>
    match hex_value h1, hex_value h2 with
    | Some a, Some b => String (ascii_of_N (a * 16 + b)) (unquote r)
    | _, _ => String "%" (unquote rest)
    end
  | String c r => String c (unquote r)
  | EmptyString => EmptyString
  end.

Definition parse_qsl (qs : string) : list (string * string) :=
  flat_map
    (fun name_value =>
       match Str.split1 "=" name_value with
       | [name; value] =>
         if Str.truthy value
         then [(unquote (Str.replace "+" " " name), unquote (Str.replace "+" " " value))]
         else []
       | _ => []
       end)
    (split_on "&" qs EmptyString).

(** [parsed_result[name].append(value)], or a new key with one value. *)
Fixpoint add_value (d : list (string * (string * list string))) (name value : string)
  : list (string * (string * list string)) :=
  match d with
  | [] => [(name, (value, []))]
  | (k, (v, vs)) :: r =>
    if String.eqb k name then (k, (v, vs ++ [value])%list) :: r
    else (k, (v, vs)) :: add_value r name value
  end.

Definition parse_qs (qs : string) : list (string * (string * list string)) :=
  fold_left (fun d nv => add_value d (fst nv) (snd nv)) (parse_qsl qs) [].

(* --------------------------------------------------------------- *)
(** *** [str]

    The spelling of [None], of a boolean and of an integer.  The digits of
    a float and the display of a container are not modelled: no evaluation
    in this development applies [str] to one, and [py_str] answers with the
    name of its type. *)

Definition py_str (v : value) : string :=
  match v with
  | VNone => "None"
  | VBool true => "True"
  | VBool false => "False"
  | VInt z => NilZero.string_of_int (Z.to_int z)
  | VStr s => s
  | VFloat _ => "float"
  | VList _ => "list"
  | VDict _ => "dict"
  end.

End Ref.

(* ================================================================= *)
(** ** Notions used by the statements *)

(** The ten flags that take an argument. *)
Definition argument_flags : list string :=
  ["-X"; "--request"; "-H"; "--header"; "-d"; "--data"; "--data-raw"; "--data-binary";
   "-F"; "--form"].

Definition is_argument_flag (t : string) : bool := Str.mem t argument_flags.

(** The tokens the cursor stops at without taking them as a flag with its
    argument.  A flag at the very end has no argument to take and is one
    of them. *)
Fixpoint positional (ts : list string) : list string :=
  match ts with
  | [] => []
  | part :: rest =>
    match rest with
    | _ :: rest' => if is_argument_flag part then positional rest' else part :: positional rest
    | [] => [part]
    end
  end.

(** The candidate urls of a token sequence, in order. *)
Definition url_tokens (ts : list string) : list string :=
  filter (fun t => Str.startswith t "http") (positional ts).

(** The cursor reaches the last token, and the last token is a flag that
    takes an argument: a dangling flag. *)
Fixpoint dangling (ts : list string) : bool :=
  match ts with
  | [] => false
  | part :: rest =>
    match rest with
    | _ :: rest' => if is_argument_flag part then dangling rest' else dangling rest
    | [] => is_argument_flag part
    end
  end.

(** No token is a form flag, and [json_loads] raises nothing but
    [JSONDecodeError] on any token: the extractor has no way to fail. *)
Definition calm (json_loads : string -> result value) (ts : list string) : bool :=
  forallb
    (fun t =>
       negb (Str.mem t ["-F"; "--form"]) &&
       match json_loads t with
       | Ok _ | Raise JSONDecodeError => true
       | Raise _ => false
       end)
    ts.

(** The request body of a record: one when the body is truthy, under the
    content type the record holds for the exact name [Content-Type], and
    none otherwise. *)
Definition content_type_of (d : Details.t) : string :=
  dict_get_default (Details.headers d) "Content-Type" "application/json".

Definition expected_request_body (d : Details.t) (oid : string) : option value :=
  if truthy (Details.body d) then
    Some (request_body (content_type_of d)
            (if String.eqb (content_type_of d) "application/json"
                && isinstance (Details.body d) Tdict
             then VDict [("$ref",
                          VStr (Str.f ["#/components/schemas/"; Str.f ["Schema_"; oid]]))]
             else string_schema))
  else None.

(** The security the [# auth] block stores. *)
Definition expected_security (d : Details.t) : option string :=
  match dict_get (Details.headers d) "Authorization" with
  | Some a =>
    if Str.truthy a then
      if Str.startswith (Str.lower a) "bearer " then Some "BearerAuth"
      else if Str.startswith (Str.lower a) "basic " then Some "BasicAuth"
      else None
    else None
  | None => None
  end.

(** The path and the method under which a transcript is stored, when it is
    stored at all: it is not blank, it is parsed, it has a url, and the url
    is split. *)
Definition target (shlex_split : string -> result (list string))
    (json_loads : string -> result value) (urlparse : string -> result Url.t)
    (req : string) : option (string * string) :=
  if negb (Str.truthy (Str.strip req)) then None
  else
    match parse_curl shlex_split json_loads req with
    | Ok d =>
      match Details.url d with
      | Some u =>
        if negb (Str.truthy u) then None
        else
          match urlparse u with
          | Ok p => Some (Str.or_else (Url.path p) "/", Str.lower (Details.method d))
          | Raise _ => None
          end
      | None => None
      end
    | Raise _ => None
    end.

(** A transcript with which nothing can go wrong: it is blank, or it is
    split into tokens none of which is a form flag, and neither
    [json_loads] (beyond [JSONDecodeError]) nor [urlparse] raises on any
    token of it.  An absent url, a header with no colon and a body that is
    not JSON are all allowed. *)
Definition tame (shlex_split : string -> result (list string))
    (json_loads : string -> result value) (urlparse : string -> result Url.t)
    (req : string) : bool :=
  negb (Str.truthy (Str.strip req)) ||
  match shlex_split req with
  | Ok ts => calm json_loads ts && forallb (fun t => negb (raises (urlparse t))) ts
  | Raise _ => false
  end.

(** The operation stored under a path and a method. *)
Definition lookup (ps : dict (dict value)) (path method : string) : option value :=
  match dict_get ps path with
  | Some methods => dict_get methods method
  | None => None
  end.

(** The operations of [paths], each with its path and method. *)
Definition operations_of (ps : dict (dict value)) : list (string * string * value) :=
  flat_map (fun pm => List.map (fun mo => (fst pm, fst mo, snd mo)) (snd pm)) ps.

(** The [operationId] of an operation. *)
Definition operation_id_of (operation : value) : option string :=
  match operation with
  | VDict pd =>
    match dict_get pd "operationId" with
    | Some (VStr s) => Some s
    | _ => None
    end
  | _ => None
  end.

(** Keys are unique, at both levels of [paths]. *)
Definition well_keyed (ps : dict (dict value)) : Prop :=
  NoDup (keys ps) /\ Forall (fun pm => NoDup (keys (snd pm))) ps.

(** After the first [n] transcripts, whose targets [tgt] gives by index:
    every operation in [paths] is the one of the last transcript stored
    under its path and method, and carries that transcript's index in its
    [operationId]. *)
Definition last_write_wins (tgt : nat -> option (string * string)) (n : nat)
    (ps : dict (dict value)) : Prop :=
  forall p m x,
    lookup ps p m = Some x ->
    exists i pd,
      i < n /\ tgt i = Some (p, m) /\ x = VDict pd
      /\ dict_get pd "operationId" = Some (VStr (operation_id m p i))
      /\ forall j, i < j -> j < n -> tgt j <> Some (p, m).

(** Every target of the first [n] transcripts has an operation. *)
Definition all_stored (tgt : nat -> option (string * string)) (n : nat)
    (ps : dict (dict value)) : Prop :=
  forall i p m, i < n -> tgt i = Some (p, m) -> lookup ps p m <> None.

(** The text after the last [sep] of a string, when it has one. *)
Fixpoint after_last (sep : ascii) (s : string) : option string :=
  match s with
  | EmptyString => None
  | String c r =>
    match after_last sep r with
    | Some t => Some t
    | None => if Ascii.eqb c sep then Some r else None
    end
  end.

(** The target of each transcript of a batch, by index. *)
Definition targets (shlex_split : string -> result (list string))
    (json_loads : string -> result value) (urlparse : string -> result Url.t)
    (requests : list string) (j : nat) : option (string * string) :=
  match nth_error requests j with
  | Some req => target shlex_split json_loads urlparse req
  | None => None
  end.

(** The parameter entries of an operation. *)
Definition parameters_of (operation : dict value) : list value :=
  match dict_get operation "parameters" with
  | Some (VList l) => l
  | _ => []
  end.

(** The query entries of a collection item: what [query_params] holds when
    it is truthy. *)
Definition query_entries (py_str : value -> string) (item : value) : result (list value) :=
  request_data <- get item "request" (VDict []) ;;
  url_info <- get request_data "url" (VDict []) ;;
  located <- locate py_str url_info ;;
  let '(_, _, query_params) := located in
  if truthy query_params then iter query_params else Ok [].

(** A query entry made from [q]: it is required unless [q] is disabled. *)
Definition query_entry_of (q entry : value) : Prop :=
  exists disabled fields,
    get q "disabled" (VBool false) = Ok disabled
    /\ entry = VDict fields
    /\ dict_get fields "in" = Some (VStr "query")
    /\ dict_get fields "required" = Some (VBool (negb (truthy disabled))).

(** A header entry: it is not required. *)
Definition header_entry (entry : value) : Prop :=
  exists fields,
    entry = VDict fields
    /\ dict_get fields "in" = Some (VStr "header")
    /\ dict_get fields "required" = Some (VBool false).

(** The key [parameters] holds a list, when it is there. *)
Definition parameters_listed (operation : dict value) : Prop :=
  match dict_get operation "parameters" with
  | Some (VList _) | None => True
  | Some _ => False
  end.

(** The schema nodes the inferrer can produce: the four scalar types it
    ever answers, an object with its properties, an array with the schema
    of its items or with the empty schema. *)
Inductive schema_node : value -> Prop :=
| node_scalar (name : string) :
    In name ["string"; "integer"; "number"; "object"] ->
    schema_node (VDict [("type", VStr name)])
| node_object (properties : dict value) :
    Forall (fun kv => schema_node (snd kv)) properties ->
    schema_node (VDict [("type", VStr "object"); ("properties", VDict properties)])
| node_array (items : value) :
    schema_node items ->
    schema_node (VDict [("type", VStr "array"); ("items", items)])
| node_array_of_nothing :
    schema_node (VDict [("type", VStr "array"); ("items", VDict [])]).

(** The value found in nested dictionaries along a list of keys. *)
Fixpoint at_path (v : value) (ks : list string) : option value :=
  match ks with
  | [] => Some v
  | k :: r =>
    match v with
    | VDict d =>
      match dict_get d k with
      | Some x => at_path x r
      | None => None
      end
    | _ => None
    end
  end.

(** Where an operation refers to a schema by name. *)
Definition schema_reference : list string :=
  ["requestBody"; "content"; "application/json"; "schema"; "$ref"].

Definition server_entry (server_url : string) : value := VDict [("url", VStr server_url)].

(** The server origin of a transcript that is stored. *)
Definition origin (shlex_split : string -> result (list string))
    (json_loads : string -> result value) (urlparse : string -> result Url.t)
    (req : string) : option string :=
  if negb (Str.truthy (Str.strip req)) then None
  else
    match parse_curl shlex_split json_loads req with
    | Ok d =>
      match Details.url d with
      | Some u =>
        if negb (Str.truthy u) then None
        else
          match urlparse u with
          | Ok p => Some (Str.f [Url.scheme p; "://"; Url.netloc p])
          | Raise _ => None
          end
      | None => None
      end
    | Raise _ => None
    end.

(** The scheme registered under a security name. *)
Definition scheme_of (name : string) : string :=
  if String.eqb name "BearerAuth" then "bearer" else "basic".

(** Whether the body of a record gets a schema of its own. *)
Definition has_schema (d : Details.t) : bool :=
  truthy (Details.body d)
  && (String.eqb (content_type_of d) "application/json" && isinstance (Details.body d) Tdict).

(** [isinstance(v, str)]. *)
Definition is_string (v : value) : bool := isinstance v Tstr.

(* ================================================================= *)
(** ** The request extractor *)

Section Extractor.

Variable json_loads : string -> result value.

Lemma header_step_url arg d : Details.url (header_step arg d) = Details.url d.
Proof.
  unfold header_step. destruct (Str.split1 ":" arg) as [|k [|v [|? ?]]]; reflexivity.
Qed.

Lemma data_step_url arg d d' :
  data_step json_loads arg d = Ok d' -> Details.url d' = Details.url d.
Proof.
  unfold data_step. destruct (json_loads arg) as [v|[]]; intros H; inversion H; reflexivity.
Qed.

Lemma form_step_url arg d d' :
  form_step arg d = Ok d' -> Details.url d' = Details.url d.
Proof.
  unfold form_step.
  destruct (Str.split1 "=" arg) as [|k [|v [|? ?]]]; simpl;
    try (intros H; inversion H; reflexivity).
  destruct (setitem _ _ _); simpl; intros H; inversion H; reflexivity.
Qed.

Lemma is_argument_flag_cases part :
  is_argument_flag part =
  Str.mem part ["-X"; "--request"] || Str.mem part ["-H"; "--header"]
  || Str.mem part ["-d"; "--data"; "--data-raw"; "--data-binary"]
  || Str.mem part ["-F"; "--form"].
Proof.
  unfold is_argument_flag, argument_flags, Str.mem. simpl.
  repeat rewrite orb_false_r. repeat rewrite orb_assoc. reflexivity.
Qed.

Lemma flag_not_url part : is_argument_flag part = true -> Str.startswith part "http" = false.
Proof.
  unfold is_argument_flag, argument_flags, Str.mem. simpl. intros H.
  repeat (apply orb_prop in H; destruct H as [H|H];
          [apply String.eqb_eq in H; subst; reflexivity|]).
  discriminate.
Qed.

Lemma last_cons {A} (x : A) l d : last (x :: l) d = last l x.
Proof.
  revert x d. induction l as [|y l IH]; intros x d; [reflexivity|].
  change (last (x :: y :: l) d) with (last (y :: l) d). rewrite IH.
  simpl. destruct l; [reflexivity|]. symmetry. apply (IH y x).
Qed.

(** Two-step induction over the tokens, as the cursor moves. *)
Lemma cursor_ind (P : list string -> Prop) :
  P [] ->
  (forall part, P [] -> P [part]) ->
  (forall part arg rest, P rest -> P (arg :: rest) -> P (part :: arg :: rest)) ->
  forall ts, P ts.
Proof.
  intros H0 H1 H2 ts.
  assert (H : P ts /\ forall t, P (t :: ts)).
  { induction ts as [|a ts [IHa IHb]].
    - split; [exact H0|]. intros t. apply H1, H0.
    - split; [apply IHb|]. intros t. apply H2; [exact IHa | apply IHb]. }
  apply H.
Qed.

Lemma parse_curl_loop_url ts :
  forall d d', parse_curl_loop json_loads ts d = Ok d' ->
  Details.url d' = last (List.map Some (url_tokens ts)) (Details.url d).
Proof.
  induction ts as [|part _|part arg rest IH2 IH1] using cursor_ind; intros d d' H.
  - inversion H. reflexivity.
  - unfold url_tokens. simpl in *.
    destruct (Str.startswith part "http"); inversion H; reflexivity.
  - unfold url_tokens in *. cbn [parse_curl_loop positional] in *.
    rewrite is_argument_flag_cases.
    destruct (Str.mem part ["-X"; "--request"]); cbn [orb].
    { apply IH2 in H. exact H. }
    destruct (Str.mem part ["-H"; "--header"]); cbn [orb].
    { apply IH2 in H. rewrite H, header_step_url. reflexivity. }
    destruct (Str.mem part ["-d"; "--data"; "--data-raw"; "--data-binary"]); cbn [orb].
    { destruct (data_step json_loads arg d) as [d1|] eqn:E; [|discriminate].
      cbn [bind] in H. apply IH2 in H. rewrite H, (data_step_url _ _ E). reflexivity. }
    destruct (Str.mem part ["-F"; "--form"]); cbn [orb].
    { destruct (form_step arg d) as [d1|] eqn:E; [|discriminate].
      cbn [bind] in H. apply IH2 in H. rewrite H, (form_step_url _ _ E). reflexivity. }
    cbn [filter]. destruct (Str.startswith part "http").
    + apply IH1 in H. rewrite H. cbn [List.map]. rewrite last_cons. reflexivity.
    + apply IH1 in H. exact H.
Qed.

Lemma parse_curl_loop_calm ts :
  forall d, calm json_loads ts = true -> exists d', parse_curl_loop json_loads ts d = Ok d'.
Proof.
  induction ts as [|part _|part arg rest IH2 IH1] using cursor_ind; intros d H.
  - eexists; reflexivity.
  - simpl. destruct (Str.startswith part "http"); eexists; reflexivity.
  - assert (Hrest : calm json_loads rest = true /\ calm json_loads (arg :: rest) = true).
    { unfold calm in *. cbn [forallb] in *.
      apply andb_prop in H. destruct H as [_ H]. split; [|exact H].
      apply andb_prop in H. apply H. }
    destruct Hrest as [Hr Har].
    assert (Hform : Str.mem part ["-F"; "--form"] = false).
    { unfold calm in H. cbn [forallb] in H. apply andb_prop in H. destruct H as [H _].
      apply andb_prop in H. destruct H as [H _]. apply negb_true_iff in H. exact H. }
    assert (Harg : exists d1, data_step json_loads arg d = Ok d1).
    { unfold calm in Har. cbn [forallb] in Har. apply andb_prop in Har.
      destruct Har as [Har _]. apply andb_prop in Har. destruct Har as [_ Har].
      unfold data_step. destruct (json_loads arg) as [v|[]]; try discriminate;
        eexists; reflexivity. }
    cbn [parse_curl_loop]. rewrite Hform.
    destruct (Str.mem part ["-X"; "--request"]); [apply IH2; exact Hr|].
    destruct (Str.mem part ["-H"; "--header"]); [apply IH2; exact Hr|].
    destruct (Str.mem part ["-d"; "--data"; "--data-raw"; "--data-binary"]).
    { destruct Harg as [d1 ->]. cbn [bind]. apply IH2; exact Hr. }
    destruct (Str.startswith part "http"); apply IH1; exact Har.
Qed.

Lemma parse_curl_loop_dangling ts :
  forall d, dangling ts = true ->
  parse_curl_loop json_loads ts d = parse_curl_loop json_loads (removelast ts) d.
Proof.
  induction ts as [|part _|part arg rest IH2 IH1] using cursor_ind; intros d H.
  - discriminate.
  - simpl in *. rewrite (flag_not_url _ H). reflexivity.
  - cbn [dangling] in H. rewrite is_argument_flag_cases in H.
    change (removelast (part :: arg :: rest)) with (part :: removelast (arg :: rest)).
    destruct rest as [|r0 rest].
    + (* [arg] is the last token *)
      cbn [removelast]. cbn [parse_curl_loop].
      destruct (Str.mem part ["-X"; "--request"]); [discriminate|].
      destruct (Str.mem part ["-H"; "--header"]); [discriminate|].
      destruct (Str.mem part ["-d"; "--data"; "--data-raw"; "--data-binary"]);
        [discriminate|].
      destruct (Str.mem part ["-F"; "--form"]); [discriminate|].
      cbn [orb] in H. cbn [dangling] in H. rewrite (flag_not_url _ H).
      destruct (Str.startswith part "http"); reflexivity.
    + change (removelast (arg :: r0 :: rest)) with (arg :: removelast (r0 :: rest)).
      cbn [parse_curl_loop].
      assert (Hcut : forall d0,
                 is_argument_flag part = true ->
                 parse_curl_loop json_loads (r0 :: rest) d0
                 = parse_curl_loop json_loads (removelast (r0 :: rest)) d0).
      { intros d0 Hp. apply IH2. rewrite is_argument_flag_cases in Hp.
        rewrite Hp in H. exact H. }
      rewrite is_argument_flag_cases in Hcut.
      destruct (Str.mem part ["-X"; "--request"]); [apply Hcut; reflexivity|].
      destruct (Str.mem part ["-H"; "--header"]); [apply Hcut; reflexivity|].
      destruct (Str.mem part ["-d"; "--data"; "--data-raw"; "--data-binary"]).
      { destruct (data_step json_loads arg d); cbn [bind];
          [apply Hcut; reflexivity | reflexivity]. }
      destruct (Str.mem part ["-F"; "--form"]).
      { destruct (form_step arg d); cbn [bind]; [apply Hcut; reflexivity | reflexivity]. }
      cbn [orb] in H.
      change (arg :: removelast (r0 :: rest)) with (removelast (arg :: r0 :: rest)).
      destruct (Str.startswith part "http"); apply IH1; exact H.
Qed.

End Extractor.

(* ----------------------------------------------------------------- *)
(** *** Form fields *)

(** A form field whose argument has an [=] is stored by item assignment on
    the body, so it is stored when the body is a dict, and [TypeError] is
    raised when it is anything else. *)
Lemma form_step_on_dict arg key value d b :
  Str.split1 "=" arg = [key; value] -> Details.body d = VDict b ->
  form_step arg d = Ok (Details.with_body d (VDict (dict_set b key (VStr value)))).
Proof.
  intros Harg Hb. unfold form_step. rewrite Harg.
  unfold Details.get, Details.with_body, Details.body in *. simpl. rewrite Hb. reflexivity.
Qed.

Lemma form_step_off_dict arg key value d :
  Str.split1 "=" arg = [key; value] -> isinstance (Details.body d) Tdict = false ->
  form_step arg d = Raise TypeError.
Proof.
  intros Harg Hb. unfold form_step. rewrite Harg.
  unfold Details.get, Details.with_body, Details.body in *. simpl.
  destruct d as [m u h b]; simpl in *. destruct b; try reflexivity. discriminate.
Qed.

(** A form field with no [=] leaves the record as it is. *)
Lemma form_step_no_equals arg d :
  Str.cut "=" arg = None -> form_step arg d = Ok d.
Proof.
  intros Harg. unfold form_step, Str.split1. rewrite Harg.
  destruct d; reflexivity.
Qed.

(** C2: a form field with an [=] is meant to go into the body mapping, which
    is meant to be created when no body was set.  The code does not create
    it: [details.get('body', {})] finds the key [body], whose value is
    [None], and the item assignment on [None] raises [TypeError].  Here on
    the transcript [curl -F name=Ann https://api.example.com/upload]. *)
Theorem form_field_without_body_raises (json_loads : string -> result value) :
  parse_curl Ref.shlex_split json_loads "curl -F name=Ann https://api.example.com/upload"
  = Raise TypeError.
Proof. reflexivity. Qed.

(* ----------------------------------------------------------------- *)
(** *** The url *)

(** C5, as amended: of the tokens that begin with [http] and are not taken
    as the argument of a flag, the last one is the url of the record; and a
    record is returned whenever no token is a form flag and [json_loads]
    fails only with [JSONDecodeError]. *)
Theorem url_is_last_match (json_loads : string -> result value)
    (ts us : list string) (u : string) :
  url_tokens ts = (us ++ [u])%list ->
  (forall d, parse_curl_tokens json_loads ts = Ok d -> Details.url d = Some u)
  /\ (calm json_loads ts = true ->
      exists d, parse_curl_tokens json_loads ts = Ok d /\ Details.url d = Some u).
Proof.
  intros Hus.
  assert (Hlast : forall d, parse_curl_tokens json_loads ts = Ok d -> Details.url d = Some u).
  { intros d H. unfold parse_curl_tokens in H. apply parse_curl_loop_url in H.
    rewrite H, Hus, map_app. cbn [List.map]. apply last_last. }
  split; [exact Hlast|].
  intros Hcalm. destruct (parse_curl_loop_calm json_loads ts Details.initial Hcalm) as [d Hd].
  exists d. split; [exact Hd | apply Hlast; exact Hd].
Qed.

Lemma url_is_last_match_witness :
  url_tokens ["curl"; "http://a.example.com/x"; "-H"; "http: no"; "http://b.example.com/y"]
  = (["http://a.example.com/x"] ++ ["http://b.example.com/y"])%list
  /\ calm Ref.json_loads
       ["curl"; "http://a.example.com/x"; "-H"; "http: no"; "http://b.example.com/y"] = true
  /\ exists d,
      parse_curl_tokens Ref.json_loads
        ["curl"; "http://a.example.com/x"; "-H"; "http: no"; "http://b.example.com/y"] = Ok d
      /\ Details.url d = Some "http://b.example.com/y".
Proof.
  split; [reflexivity|]. split; [vm_compute; reflexivity|].
  apply (url_is_last_match Ref.json_loads
           ["curl"; "http://a.example.com/x"; "-H"; "http: no"; "http://b.example.com/y"]
           ["http://a.example.com/x"] "http://b.example.com/y").
  - reflexivity.
  - vm_compute; reflexivity.
Defined.

(** C5, as stated, fails: with two candidate urls the record holds the
    second, not the first. *)
Lemma url_is_not_first_match :
  parse_curl Ref.shlex_split Ref.json_loads
    "curl http://a.example.com/x http://b.example.com/y"
  = Ok (Details.mk "GET" (Some "http://b.example.com/y") [] VNone).
Proof. vm_compute. reflexivity. Qed.

(* ----------------------------------------------------------------- *)
(** *** A flag at the end *)

Lemma dangling_last ts : dangling ts = true -> is_argument_flag (last ts EmptyString) = true.
Proof.
  induction ts as [|part _|part arg rest IH2 IH1] using cursor_ind; intros H.
  - discriminate.
  - exact H.
  - cbn [dangling] in H. change (last (part :: arg :: rest) EmptyString)
      with (last (arg :: rest) EmptyString).
    destruct (is_argument_flag part).
    + destruct rest as [|r0 rest]; [discriminate|].
      change (last (arg :: r0 :: rest) EmptyString) with (last (r0 :: rest) EmptyString).
      apply IH2, H.
    + apply IH1, H.
Qed.

(** C10, as amended: when the last token is a flag that takes an argument
    and the cursor reaches it (it is not itself the argument of the flag
    before it), the extractor does exactly what it does on the tokens
    before it: the flag is skipped, every field keeps its value, and
    nothing is raised that the tokens before it do not raise. *)
Theorem dangling_flag_is_skipped (json_loads : string -> result value) (ts : list string) :
  dangling ts = true ->
  is_argument_flag (last ts EmptyString) = true
  /\ parse_curl_tokens json_loads ts = parse_curl_tokens json_loads (removelast ts)
  /\ forall d, parse_curl_loop json_loads [last ts EmptyString] d = Ok d.
Proof.
  intros H. pose proof (dangling_last ts H) as Hflag.
  split; [exact Hflag|]. split.
  - apply parse_curl_loop_dangling, H.
  - intros d. simpl. rewrite (flag_not_url _ Hflag). reflexivity.
Qed.

Lemma dangling_flag_is_skipped_witness :
  dangling ["curl"; "-X"; "POST"; "http://a.example.com/x"; "--header"] = true
  /\ parse_curl_tokens Ref.json_loads
       ["curl"; "-X"; "POST"; "http://a.example.com/x"; "--header"]
     = Ok (Details.mk "POST" (Some "http://a.example.com/x") [] VNone).
Proof.
  split; [reflexivity|].
  rewrite (proj1 (proj2 (dangling_flag_is_skipped Ref.json_loads
             ["curl"; "-X"; "POST"; "http://a.example.com/x"; "--header"] eq_refl))).
  vm_compute. reflexivity.
Defined.

(** C10, as stated, fails: a final flag that is the argument of the flag
    before it is not skipped.  In [curl -X -X] the method is never set by a
    proper value, and it does not stay [GET]. *)
Lemma final_flag_taken_as_argument :
  parse_curl Ref.shlex_split Ref.json_loads "curl -X -X"
  = Ok (Details.mk "-X" None [] VNone).
Proof. vm_compute. reflexivity. Qed.

(* ================================================================= *)
(** ** The schema inferrer *)

(** What the inferrer answers on the scalars other than booleans, and on
    [None]. *)
Lemma infer_json_schema_scalars :
  (forall s, infer_json_schema (VStr s) = scalar_schema "string")
  /\ (forall z, infer_json_schema (VInt z) = scalar_schema "integer")
  /\ (forall x, infer_json_schema (VFloat x) = scalar_schema "number")
  /\ infer_json_schema VNone = scalar_schema "object".
Proof. repeat split. Qed.

(** C3: a boolean is meant to yield the boolean schema.  The test for [int]
    comes before the test for [bool], and a boolean is an [int]: the
    boolean branch is never reached, and a boolean yields the integer
    schema. *)
Theorem infer_json_schema_boolean (b : bool) :
  infer_json_schema (VBool b) = scalar_schema "integer".
Proof. reflexivity. Qed.

(* ================================================================= *)
(** ** Dictionaries, reasoned about *)

Section Dictionaries.

Context {A : Type}.

Lemma dict_get_set_same (d : dict A) k v : dict_get (dict_set d k v) k = Some v.
Proof.
  induction d as [|[k' v'] d IH]; simpl.
  - rewrite String.eqb_refl. reflexivity.
  - destruct (String.eqb k' k) eqn:E; simpl; rewrite E; [reflexivity | exact IH].
Qed.

Lemma dict_get_set_other (d : dict A) k k' v :
  k <> k' -> dict_get (dict_set d k v) k' = dict_get d k'.
Proof.
  intros Hne. induction d as [|[k0 v0] d IH]; simpl.
  - apply String.eqb_neq in Hne. rewrite Hne. reflexivity.
  - destruct (String.eqb k0 k) eqn:E; simpl.
    + apply String.eqb_eq in E. subst k0.
      apply String.eqb_neq in Hne. rewrite Hne. reflexivity.
    + rewrite IH. reflexivity.
Qed.

Lemma dict_get_set (d : dict A) k k' v :
  dict_get (dict_set d k v) k' = if String.eqb k k' then Some v else dict_get d k'.
Proof.
  destruct (String.eqb k k') eqn:E.
  - apply String.eqb_eq in E. subst. apply dict_get_set_same.
  - apply String.eqb_neq in E. apply dict_get_set_other, E.
Qed.

Lemma dict_get_None (d : dict A) k : dict_get d k = None -> ~ In k (keys d).
Proof.
  induction d as [|[k' v'] d IH]; simpl; intros H; [tauto|].
  destruct (String.eqb k' k) eqn:E; [discriminate|].
  apply String.eqb_neq in E. intros [H1|H1]; [congruence | exact (IH H H1)].
Qed.

Lemma dict_get_In (d : dict A) k v : dict_get d k = Some v -> In (k, v) d.
Proof.
  induction d as [|[k' v'] d IH]; simpl; intros H; [discriminate|].
  destruct (String.eqb k' k) eqn:E.
  - apply String.eqb_eq in E. inversion H. subst. left. reflexivity.
  - right. apply IH, H.
Qed.

Lemma In_dict_get (d : dict A) k v : NoDup (keys d) -> In (k, v) d -> dict_get d k = Some v.
Proof.
  induction d as [|[k' v'] d IH]; simpl; intros Hnd Hin; [tauto|].
  inversion Hnd as [|? ? Hnotin Hnd']; subst.
  destruct Hin as [Heq|Hin].
  - inversion Heq. subst. rewrite String.eqb_refl. reflexivity.
  - destruct (String.eqb k' k) eqn:E.
    + apply String.eqb_eq in E. subst k'. exfalso. apply Hnotin.
      change k with (fst (k, v)). apply in_map, Hin.
    + apply IH; assumption.
Qed.

Lemma keys_dict_set (d : dict A) k v :
  keys (dict_set d k v) = if existsb (String.eqb k) (keys d) then keys d else (keys d ++ [k])%list.
Proof.
  induction d as [|[k' v'] d IH]; simpl; [reflexivity|].
  rewrite (String.eqb_sym k k').
  destruct (String.eqb k' k) eqn:E; simpl; [reflexivity|].
  unfold keys in *. rewrite IH.
  destruct (existsb (String.eqb k) (List.map fst d)); reflexivity.
Qed.

Lemma NoDup_keys_dict_set (d : dict A) k v :
  NoDup (keys d) -> NoDup (keys (dict_set d k v)).
Proof.
  intros Hnd. rewrite keys_dict_set.
  destruct (existsb (String.eqb k) (keys d)) eqn:E; [exact Hnd|].
  apply NoDup_app; [exact Hnd | repeat constructor; simpl; tauto |].
  intros x Hx [Hk|[]]. subst x.
  assert (existsb (String.eqb k) (keys d) = true); [|congruence].
  apply existsb_exists. exists k. split; [exact Hx | apply String.eqb_refl].
Qed.

End Dictionaries.

(* ================================================================= *)
(** ** The aggregator *)

(** What the blocks of the loop body leave alone. *)

Lemma append_parameter_other pd x k :
  k <> "parameters" -> dict_get (append_parameter pd x) k = dict_get pd k.
Proof.
  intros Hne. unfold append_parameter.
  destruct (dict_get pd "parameters") as [[]|]; try reflexivity;
    apply dict_get_set_other; congruence.
Qed.

Lemma add_query_parameters_other qs pd k :
  k <> "parameters" -> dict_get (add_query_parameters qs pd) k = dict_get pd k.
Proof.
  intros Hne. unfold add_query_parameters. destruct qs; [reflexivity|].
  apply dict_get_set_other. congruence.
Qed.

Lemma add_header_parameters_other hs pd k :
  k <> "parameters" -> dict_get (add_header_parameters hs pd) k = dict_get pd k.
Proof.
  intros Hne. unfold add_header_parameters. revert pd.
  induction hs as [|hv hs IH]; intros pd; simpl; [reflexivity|].
  rewrite IH. destruct (negb _); [apply append_parameter_other, Hne | reflexivity].
Qed.

Lemma add_security_other hs ss pd k :
  k <> "security" -> dict_get (snd (add_security hs ss pd)) k = dict_get pd k.
Proof.
  intros Hne. unfold add_security.
  destruct (dict_get hs "Authorization") as [a|]; [|reflexivity].
  destruct (Str.truthy a); [|reflexivity].
  destruct (Str.startswith (Str.lower a) "bearer ");
    [simpl; apply dict_get_set_other; congruence|].
  destruct (Str.startswith (Str.lower a) "basic ");
    [simpl; apply dict_get_set_other; congruence | reflexivity].
Qed.

Lemma add_request_body_other d oid ss pd k :
  k <> "requestBody" -> dict_get (snd (add_request_body d oid ss pd)) k = dict_get pd k.
Proof.
  intros Hne. unfold add_request_body.
  destruct (truthy (Details.body d)); [|reflexivity].
  destruct (_ && _); simpl; apply dict_get_set_other; congruence.
Qed.

Lemma add_request_body_stored d oid ss pd :
  dict_get pd "requestBody" = None ->
  dict_get (snd (add_request_body d oid ss pd)) "requestBody" = expected_request_body d oid.
Proof.
  intros Hnone. unfold add_request_body, expected_request_body, content_type_of.
  destruct (truthy (Details.body d)); [|exact Hnone].
  destruct (_ && _); simpl; apply dict_get_set_same.
Qed.

Lemma add_security_stored d ss pd :
  dict_get pd "security" = None ->
  match expected_security d with
  | Some name =>
    dict_get (snd (add_security (Details.headers d) ss pd)) "security"
    = Some (VList [VDict [(name, VList [])]])
    /\ exists scheme,
        fst (add_security (Details.headers d) ss pd) = dict_set ss name (http_scheme scheme)
  | None =>
    dict_get (snd (add_security (Details.headers d) ss pd)) "security" = None
    /\ fst (add_security (Details.headers d) ss pd) = ss
  end.
Proof.
  intros Hnone. unfold expected_security, add_security.
  destruct (dict_get (Details.headers d) "Authorization") as [a|]; [|split; tauto].
  destruct (Str.truthy a); [|split; tauto].
  destruct (Str.startswith (Str.lower a) "bearer ").
  { simpl. split; [apply dict_get_set_same | eexists; reflexivity]. }
  destruct (Str.startswith (Str.lower a) "basic ").
  { simpl. split; [apply dict_get_set_same | eexists; reflexivity]. }
  split; tauto.
Qed.

(* ----------------------------------------------------------------- *)
(** *** Operation identifiers end in the index *)

Lemma after_last_app sep a d :
  after_last sep d = None -> after_last sep (a ++ String sep d) = Some d.
Proof.
  intros H. induction a as [|c a IH]; simpl.
  - rewrite H, Ascii.eqb_refl. reflexivity.
  - rewrite IH. reflexivity.
Qed.

Lemma after_last_digits (u : uint) : after_last "_" (NilEmpty.string_of_uint u) = None.
Proof. induction u; simpl; try rewrite IHu; reflexivity. Qed.

Lemma of_nat_inj i j : Str.of_nat i = Str.of_nat j -> i = j.
Proof.
  unfold Str.of_nat. intros H. apply Unsigned.to_uint_inj.
  apply (f_equal NilEmpty.uint_of_string) in H.
  rewrite !NilEmpty.usu in H. inversion H. reflexivity.
Qed.

Lemma append_cons_assoc a c b : a ++ String c b = (a ++ String c EmptyString) ++ b.
Proof. induction a as [|x a IH]; simpl; [reflexivity | rewrite IH; reflexivity]. Qed.

Lemma operation_id_index method path i :
  after_last "_" (operation_id method path i) = Some (Str.of_nat i).
Proof.
  unfold operation_id, Str.f. simpl.
  set (x := Str.or_else _ _).
  change (method ++ String "_" (x ++ String "_" (Str.of_nat i)))
    with (method ++ (String "_" x) ++ String "_" (Str.of_nat i)).
  assert (H : forall a b c, a ++ (b ++ c) = (a ++ b) ++ c).
  { intros a b c. induction a as [|y a IH]; simpl; [reflexivity | rewrite IH; reflexivity]. }
  rewrite H. apply after_last_app, after_last_digits.
Qed.

Lemma operation_id_inj method path i method' path' i' :
  operation_id method path i = operation_id method' path' i' -> i = i'.
Proof.
  intros H. apply (f_equal (after_last "_")) in H.
  rewrite !operation_id_index in H. inversion H. apply of_nat_inj. assumption.
Qed.

(* ----------------------------------------------------------------- *)
(** *** [paths] as a two-level dictionary *)

Lemma lookup_set_operation ps p0 m0 x p m :
  lookup (set_operation ps p0 m0 x) p m =
  if String.eqb p0 p && String.eqb m0 m then Some x else lookup ps p m.
Proof.
  unfold lookup, set_operation. rewrite dict_get_set.
  destruct (String.eqb p0 p) eqn:Ep; cbn [andb]; [|reflexivity].
  apply String.eqb_eq in Ep. subst p0. rewrite dict_get_set.
  destruct (String.eqb m0 m); [reflexivity|].
  unfold dict_get_default. destruct (dict_get ps p); reflexivity.
Qed.

Lemma Forall_dict_set {A} (Q : A -> Prop) (d : dict A) k v :
  Forall (fun kv => Q (snd kv)) d -> Q v -> Forall (fun kv => Q (snd kv)) (dict_set d k v).
Proof.
  intros Hd Hv. induction d as [|[k' v'] d IH]; simpl.
  - constructor; [exact Hv | constructor].
  - inversion Hd; subst. destruct (String.eqb k' k); constructor; auto.
Qed.

Lemma well_keyed_set_operation ps p m x :
  well_keyed ps -> well_keyed (set_operation ps p m x).
Proof.
  intros [Hk Hin]. unfold set_operation. split.
  - apply NoDup_keys_dict_set, Hk.
  - apply (@Forall_dict_set _ (fun ms : dict value => NoDup (keys ms))); [exact Hin|].
    apply NoDup_keys_dict_set. unfold dict_get_default.
    destruct (dict_get ps p) as [ms|] eqn:E; [|constructor].
    apply dict_get_In in E. rewrite Forall_forall in Hin. apply (Hin _ E).
Qed.

Lemma In_operations_of ps p m x :
  In (p, m, x) (operations_of ps) <-> exists ms, In (p, ms) ps /\ In (m, x) ms.
Proof.
  unfold operations_of. rewrite in_flat_map. split.
  - intros [[p' ms] [Hin Hmap]]. simpl in Hmap. apply in_map_iff in Hmap.
    destruct Hmap as [[m' x'] [Heq Hin']]. simpl in Heq. inversion Heq; subst.
    exists ms. split; assumption.
  - intros [ms [Hin Hin']]. exists (p, ms). split; [exact Hin|].
    simpl. apply in_map_iff. exists (m, x). split; [reflexivity | exact Hin'].
Qed.

Lemma In_operations_lookup ps p m x :
  well_keyed ps -> In (p, m, x) (operations_of ps) -> lookup ps p m = Some x.
Proof.
  intros [Hk Hin] H. apply In_operations_of in H. destruct H as [ms [H1 H2]].
  unfold lookup. rewrite (@In_dict_get _ ps _ _ Hk H1).
  apply In_dict_get; [|exact H2].
  rewrite Forall_forall in Hin. apply (Hin _ H1).
Qed.

Lemma NoDup_operations_of ps : well_keyed ps -> NoDup (List.map fst (operations_of ps)).
Proof.
  intros [Hk Hin]. induction ps as [|[p ms] ps IH]; [constructor|].
  simpl. rewrite map_app, map_map. simpl.
  inversion Hk as [|? ? Hp Hk']; subst. inversion Hin as [|? ? Hms Hin']; subst.
  apply NoDup_app.
  - simpl in Hms. unfold keys in Hms. clear -Hms.
    induction ms as [|[m x] ms IHms]; [constructor|].
    simpl in *. inversion Hms; subst. constructor; [|apply IHms; assumption].
    intros H. apply in_map_iff in H. destruct H as [[m' x'] [Heq H]].
    simpl in Heq. inversion Heq; subst. apply H1.
    change m with (fst (m, x')). apply in_map, H.
  - apply IH; assumption.
  - intros [p' m'] H1 H2. apply in_map_iff in H1. destruct H1 as [[m1 x1] [Heq _]].
    simpl in Heq. inversion Heq; subst.
    apply in_map_iff in H2. destruct H2 as [[[p2 m2] x2] [Heq2 H2]].
    simpl in Heq2. inversion Heq2; subst.
    apply In_operations_of in H2. destruct H2 as [ms' [H2 _]].
    apply Hp. change p' with (fst (p', ms')). apply in_map, H2.
Qed.

Lemma NoDup_map_on {A B C} (key : A -> B) (g : A -> C) (l : list A) :
  NoDup (List.map key l) ->
  (forall a b, In a l -> In b l -> g a = g b -> key a = key b) ->
  NoDup (List.map g l).
Proof.
  induction l as [|a l IH]; intros Hk Hg; [constructor|].
  simpl in *. inversion Hk as [|? ? Hnotin Hk']; subst. constructor.
  - intros H. apply in_map_iff in H. destruct H as [b [Heq Hb]].
    apply Hnotin. rewrite (Hg a b (or_introl eq_refl) (or_intror Hb) (eq_sym Heq)).
    apply in_map, Hb.
  - apply IH; [exact Hk'|]. intros x y Hx Hy. apply Hg; right; assumption.
Qed.

Section Aggregator.

Variable shlex_split : string -> result (list string).
Variable json_loads : string -> result value.
Variable urlparse : string -> result Url.t.
Variable parse_qs : string -> list (string * (string * list string)).

Local Abbreviation parse := (parse_curl shlex_split json_loads).
Local Abbreviation process := (process_request shlex_split json_loads urlparse parse_qs).
Local Abbreviation run := (process_requests shlex_split json_loads urlparse parse_qs).
Local Abbreviation aggregate := (generate_openapi_json shlex_split json_loads urlparse parse_qs).
Local Abbreviation target := (target shlex_split json_loads urlparse).
Local Abbreviation tame := (tame shlex_split json_loads urlparse).
Local Abbreviation targets := (targets shlex_split json_loads urlparse).

(** The operation the loop body assembles and where it stores it. *)
Lemma process_request_stored i req st d u p :
  Str.truthy (Str.strip req) = true ->
  parse req = Ok d ->
  Details.url d = Some u ->
  Str.truthy u = true ->
  urlparse u = Ok p ->
  let path := Str.or_else (Url.path p) "/" in
  let method := Str.lower (Details.method d) in
  exists st' pd,
    process i req st = Ok st'
    /\ paths (spec st') = set_operation (paths (spec st)) path method (VDict pd)
    /\ dict_get pd "operationId" = Some (VStr (operation_id method path i))
    /\ dict_get pd "requestBody" = expected_request_body d (operation_id method path i)
    /\ match expected_security d with
       | Some name =>
         dict_get pd "security" = Some (VList [VDict [(name, VList [])]])
         /\ exists scheme,
             securitySchemes (spec st')
             = dict_set (securitySchemes (spec st)) name (http_scheme scheme)
       | None =>
         dict_get pd "security" = None
         /\ securitySchemes (spec st') = securitySchemes (spec st)
       end.
Proof.
  intros Hreq Hparse Hurl Hu Hp path method.
  unfold process_request. rewrite Hreq. cbn [negb]. rewrite Hparse. cbn [bind].
  rewrite Hurl, Hu. cbn [negb]. rewrite Hp. cbn [bind].
  fold path. fold method.
  set (oid := operation_id method path i).
  set (pd0 := add_header_parameters _ (add_query_parameters _ _)).
  assert (Hget0 : forall k, k <> "parameters" ->
             dict_get pd0 k
             = dict_get [("summary", VStr (Str.f [Details.method d; " "; path]));
                         ("operationId", VStr oid);
                         ("servers",
                          VList [VDict [("url",
                                         VStr (Str.f [Url.scheme p; "://"; Url.netloc p]))]]);
                         ("responses",
                          VDict [("200",
                                  VDict [("description", VStr "Successful response")])])] k).
  { intros k Hk. unfold pd0.
    rewrite add_header_parameters_other, add_query_parameters_other by exact Hk.
    reflexivity. }
  pose proof (add_security_stored d (securitySchemes (spec st)) pd0) as Hsec.
  pose proof (add_security_other (Details.headers d) (securitySchemes (spec st)) pd0) as Hsec'.
  destruct (add_security (Details.headers d) (securitySchemes (spec st)) pd0)
    as [ss1 pd1] eqn:Es.
  cbn [fst snd] in Hsec, Hsec'.
  pose proof (add_request_body_stored d oid (schemas (spec st)) pd1) as Hbody.
  pose proof (add_request_body_other d oid (schemas (spec st)) pd1) as Hbody'.
  destruct (add_request_body d oid (schemas (spec st)) pd1) as [sc1 pd2] eqn:Eb.
  cbn [fst snd] in Hbody, Hbody'.
  exists
    (mk_state
       (mk_spec (openapi (spec st)) (info (spec st))
          (if negb (Str.mem (Str.f [Url.scheme p; "://"; Url.netloc p]) (unique_servers st))
           then (servers (spec st)
                 ++ [VDict [("url", VStr (Str.f [Url.scheme p; "://"; Url.netloc p]))]])%list
           else servers (spec st))
          (set_operation (paths (spec st)) path method (VDict pd2)) sc1 ss1)
       (if negb (Str.mem (Str.f [Url.scheme p; "://"; Url.netloc p]) (unique_servers st))
        then (unique_servers st ++ [Str.f [Url.scheme p; "://"; Url.netloc p]])%list
        else unique_servers st)), pd2.
  split; [reflexivity|]. split; [reflexivity|].
  split.
  { rewrite Hbody', Hsec', Hget0 by discriminate. reflexivity. }
  split.
  { apply Hbody. rewrite Hsec', Hget0 by discriminate. reflexivity. }
  assert (H0 : dict_get pd0 "security" = None).
  { rewrite Hget0 by discriminate. reflexivity. }
  specialize (Hsec H0).
  destruct (expected_security d) as [name|].
  - destruct Hsec as [Hs1 Hs2]. split.
    + rewrite Hbody' by discriminate. exact Hs1.
    + exact Hs2.
  - destruct Hsec as [Hs1 Hs2]. split.
    + rewrite Hbody' by discriminate. exact Hs1.
    + exact Hs2.
Qed.

(** A transcript that is not stored leaves the state as it is. *)
Lemma process_request_skipped i req st st' :
  target req = None -> process i req st = Ok st' -> st' = st.
Proof.
  unfold target, process_request.
  destruct (negb (Str.truthy (Str.strip req))); [intros _ H; inversion H; reflexivity|].
  destruct (parse req) as [d|e]; cbn [bind]; [|discriminate].
  destruct (Details.url d) as [u|]; [|intros _ H; inversion H; reflexivity].
  destruct (negb (Str.truthy u)); [intros _ H; inversion H; reflexivity|].
  destruct (urlparse u) as [p|e]; cbn [bind]; discriminate.
Qed.

(** A transcript that is stored: the new state holds its operation. *)
Lemma process_request_target i req st st' path method :
  target req = Some (path, method) -> process i req st = Ok st' ->
  exists pd,
    paths (spec st') = set_operation (paths (spec st)) path method (VDict pd)
    /\ dict_get pd "operationId" = Some (VStr (operation_id method path i)).
Proof.
  unfold target. intros Ht Hp.
  destruct (Str.truthy (Str.strip req)) eqn:Hreq; [|discriminate].
  cbn [negb] in Ht.
  destruct (parse req) as [d|e] eqn:Hparse; [|discriminate].
  destruct (Details.url d) as [u|] eqn:Hurl; [|discriminate].
  destruct (Str.truthy u) eqn:Hu; [|discriminate].
  cbn [negb] in Ht.
  destruct (urlparse u) as [p|e] eqn:Hpu; [|discriminate].
  inversion Ht; subst path method.
  destruct (process_request_stored i req st Hreq Hparse Hurl Hu Hpu)
    as (st1 & pd & H1 & H2 & H3 & _).
  rewrite H1 in Hp. inversion Hp; subst st1.
  exists pd. split; assumption.
Qed.

(* ----------------------------------------------------------------- *)
(** *** What is fatal to a batch and what is not *)

Lemma process_request_tokenizer_error i req st e :
  Str.truthy (Str.strip req) = true -> shlex_split req = Raise e ->
  process i req st = Raise e.
Proof.
  intros Hreq He. unfold process_request, parse_curl. rewrite Hreq, He. reflexivity.
Qed.

Lemma process_requests_tokenizer_error requests :
  forall i st req e,
    In req requests -> Str.truthy (Str.strip req) = true -> shlex_split req = Raise e ->
    raises (run i requests st) = true.
Proof.
  induction requests as [|r requests IH]; intros i st req e Hin Hreq He; [destruct Hin|].
  cbn [process_requests].
  destruct (process i r st) as [st'|e'] eqn:E; cbn [bind]; [|reflexivity].
  destruct Hin as [Heq|Hin].
  - subst r. rewrite (process_request_tokenizer_error i st Hreq He) in E. discriminate.
  - apply (IH (S i) st' req e); assumption.
Qed.

Lemma positional_incl ts t : In t (positional ts) -> In t ts.
Proof.
  induction ts as [|part _|part arg rest IH2 IH1] using cursor_ind; intros H.
  - exact H.
  - exact H.
  - cbn [positional] in H. destruct (is_argument_flag part).
    + right. right. apply IH2, H.
    + destruct H as [H|H]; [left; exact H | right; apply IH1, H].
Qed.

Lemma last_map_Some {A} (l : list A) (x : A) : last (List.map Some l) None = Some x -> In x l.
Proof.
  induction l as [|a l IH]; [discriminate|].
  cbn [List.map]. rewrite last_cons. destruct l as [|b l].
  - simpl. intros H. inversion H. left. reflexivity.
  - cbn [List.map]. rewrite (last_cons (Some b)).
    rewrite <- (last_cons (Some b) (List.map Some l) None).
    intros H. right. apply IH. exact H.
Qed.

Lemma process_request_tame i req st :
  tame req = true -> exists st', process i req st = Ok st'.
Proof.
  unfold tame. intros H.
  destruct (Str.truthy (Str.strip req)) eqn:Hreq.
  2:{ unfold process_request. rewrite Hreq. eexists; reflexivity. }
  cbn [negb orb] in H.
  destruct (shlex_split req) as [ts|e] eqn:Hts; [|discriminate].
  apply andb_prop in H. destruct H as [Hcalm Hurls].
  destruct (parse_curl_loop_calm json_loads ts Details.initial Hcalm) as [d Hd].
  assert (Hparse : parse req = Ok d).
  { unfold parse_curl. rewrite Hts. exact Hd. }
  destruct (Details.url d) as [u|] eqn:Hurl.
  2:{ unfold process_request. rewrite Hreq, Hparse. cbn [negb bind]. rewrite Hurl.
      eexists; reflexivity. }
  destruct (Str.truthy u) eqn:Hu.
  2:{ unfold process_request. rewrite Hreq, Hparse. cbn [negb bind]. rewrite Hurl, Hu.
      eexists; reflexivity. }
  assert (Hin : In u ts).
  { pose proof (parse_curl_loop_url json_loads ts Details.initial Hd) as Hl.
    rewrite Hurl in Hl. symmetry in Hl. apply last_map_Some in Hl.
    unfold url_tokens in Hl. apply filter_In in Hl. apply positional_incl, Hl. }
  rewrite forallb_forall in Hurls. specialize (Hurls u Hin).
  destruct (urlparse u) as [p|e] eqn:Hp; [|discriminate].
  destruct (process_request_stored i req st Hreq Hparse Hurl Hu Hp) as (st' & pd & H1 & _).
  exists st'. exact H1.
Qed.

Lemma process_requests_tame requests :
  forall i st, forallb tame requests = true -> exists st', run i requests st = Ok st'.
Proof.
  induction requests as [|r requests IH]; intros i st H.
  - eexists; reflexivity.
  - cbn [forallb] in H. apply andb_prop in H. destruct H as [Hr H].
    destruct (process_request_tame i r st Hr) as [st1 H1].
    cbn [process_requests]. rewrite H1. cbn [bind]. apply IH, H.
Qed.


(* ----------------------------------------------------------------- *)
(** *** The request body *)

Lemma lookup_operation_stored o ps path method x :
  paths o = set_operation ps path method x -> lookup_operation o path method = Some x.
Proof.
  intros H. unfold lookup_operation, set_operation in *. rewrite H.
  rewrite dict_get_set_same. apply dict_get_set_same.
Qed.


(* ----------------------------------------------------------------- *)
(** *** Paths, methods and operation identifiers *)

Lemma process_request_invariant all n req st st' :
  nth_error all n = Some req ->
  well_keyed (paths (spec st)) ->
  last_write_wins (targets all) n (paths (spec st)) ->
  all_stored (targets all) n (paths (spec st)) ->
  process n req st = Ok st' ->
  well_keyed (paths (spec st'))
  /\ last_write_wins (targets all) (S n) (paths (spec st'))
  /\ all_stored (targets all) (S n) (paths (spec st')).
Proof.
  intros Hnth Hwk Hlww Hall Hp.
  assert (Htn : targets all n = target req).
  { unfold targets. rewrite Hnth. reflexivity. }
  destruct (target req) as [[p0 m0]|] eqn:Ht.
  - destruct (process_request_target n req st Ht Hp) as (pd & Hpaths & Hid).
    rewrite Hpaths. split; [apply well_keyed_set_operation, Hwk|]. split.
    + intros p m x Hl. rewrite lookup_set_operation in Hl.
      destruct (String.eqb p0 p && String.eqb m0 m) eqn:E.
      * apply andb_prop in E. destruct E as [E1 E2].
        apply String.eqb_eq in E1. apply String.eqb_eq in E2. subst p0 m0.
        inversion Hl; subst x. exists n, pd.
        repeat split; try assumption; try lia.
      * destruct (Hlww p m x Hl) as (i & pd' & Hi & Hti & Hx & Hid' & Hlater).
        exists i, pd'. repeat split; try assumption; try lia.
        intros j Hij Hj. destruct (Nat.eq_dec j n) as [->|Hne].
        -- rewrite Htn. intros Heq. inversion Heq; subst.
           rewrite !String.eqb_refl in E. discriminate.
        -- apply Hlater; lia.
    + intros i p m Hi Hti. rewrite lookup_set_operation.
      destruct (String.eqb p0 p && String.eqb m0 m) eqn:E; [discriminate|].
      apply (Hall i p m); [|exact Hti].
      destruct (Nat.eq_dec i n) as [->|Hne]; [|lia].
      rewrite Htn in Hti. inversion Hti; subst.
      rewrite !String.eqb_refl in E. discriminate.
  - rewrite (process_request_skipped n req st Ht Hp). split; [exact Hwk|]. split.
    + intros p m x Hl. destruct (Hlww p m x Hl) as (i & pd' & Hi & Hti & Hx & Hid' & Hlater).
      exists i, pd'. repeat split; try assumption; try lia.
      intros j Hij Hj. destruct (Nat.eq_dec j n) as [->|Hne].
      * rewrite Htn. discriminate.
      * apply Hlater; lia.
    + intros i p m Hi Hti. apply (Hall i p m); [|exact Hti].
      destruct (Nat.eq_dec i n) as [->|Hne]; [|lia].
      rewrite Htn in Hti. discriminate.
Qed.

Lemma process_requests_invariant all rest :
  forall n st st',
    (forall k, nth_error rest k = nth_error all (n + k)) ->
    well_keyed (paths (spec st)) ->
    last_write_wins (targets all) n (paths (spec st)) ->
    all_stored (targets all) n (paths (spec st)) ->
    run n rest st = Ok st' ->
    well_keyed (paths (spec st'))
    /\ last_write_wins (targets all) (n + List.length rest) (paths (spec st'))
    /\ all_stored (targets all) (n + List.length rest) (paths (spec st')).
Proof.
  induction rest as [|r rest IH]; intros n st st' Hnth Hwk Hlww Hall Hrun.
  - simpl in Hrun. inversion Hrun; subst. rewrite Nat.add_0_r. auto.
  - cbn [process_requests] in Hrun.
    destruct (process n r st) as [st1|e] eqn:E; cbn [bind] in Hrun; [|discriminate].
    assert (Hr : nth_error all n = Some r).
    { rewrite <- (Nat.add_0_r n), <- Hnth. reflexivity. }
    destruct (@process_request_invariant all n r st st1 Hr Hwk Hlww Hall E) as (H1 & H2 & H3).
    cbn [List.length].
    replace (n + S (List.length rest)) with (S n + List.length rest) by lia.
    apply (IH (S n) st1 st'); try assumption.
    intros k. replace (S n + k) with (n + S k) by lia. apply (Hnth (S k)).
Qed.

(** C7: in the document of a batch, a path and a method name at most one
    operation; the last transcript stored under a path and a method is the
    one whose operation is there, carrying the index the transcript has in
    the batch (blank and skipped lines counted) at the end of its
    [operationId]; and all the operations of the document have an
    [operationId], no two of them the same. *)
Theorem paths_and_operation_ids (requests : list string) (o : openapi_spec) :
  aggregate requests = Ok o ->
  NoDup (List.map fst (operations o))
  /\ (forall i req p m,
         nth_error requests i = Some req ->
         target req = Some (p, m) ->
         (forall j req', i < j -> nth_error requests j = Some req' ->
                         target req' <> Some (p, m)) ->
         exists pd,
           lookup_operation o p m = Some (VDict pd)
           /\ dict_get pd "operationId" = Some (VStr (operation_id m p i)))
  /\ (exists ids,
         List.map (fun e => operation_id_of (snd e)) (operations o) = List.map Some ids
         /\ NoDup ids).
Proof.
  unfold generate_openapi_json. intros H.
  destruct (run 0 requests (mk_state initial_spec [])) as [st|e] eqn:Hrun;
    cbn [bind] in H; [|discriminate].
  inversion H; subst o. clear H.
  destruct (@process_requests_invariant requests requests 0 (mk_state initial_spec []) st)
    as (Hwk & Hlww & Hall).
  { intros k. reflexivity. }
  { split; constructor. }
  { intros p m x Hl. discriminate. }
  { intros i p m Hi. lia. }
  { exact Hrun. }
  cbn [Nat.add] in Hlww, Hall.
  change (operations (spec st)) with (operations_of (paths (spec st))).
  split; [apply NoDup_operations_of, Hwk|]. split.
  - intros i req p m Hnth Ht Hlast.
    assert (Hi : i < List.length requests).
    { apply nth_error_Some. rewrite Hnth. discriminate. }
    assert (Hti : targets requests i = Some (p, m)).
    { unfold targets. rewrite Hnth. exact Ht. }
    change (lookup_operation (spec st) p m) with (lookup (paths (spec st)) p m).
    destruct (lookup (paths (spec st)) p m) as [x|] eqn:Hl;
      [|exfalso; exact (Hall i p m Hi Hti Hl)].
    destruct (Hlww p m x Hl) as (i' & pd & Hi' & Hti' & Hx & Hid & Hlater).
    exists pd. subst x. split; [reflexivity|].
    assert (i' = i); [|subst; exact Hid].
    destruct (Nat.lt_trichotomy i' i) as [Hlt|[Heq|Hgt]]; [|exact Heq|].
    + exfalso. apply (Hlater i Hlt Hi Hti).
    + exfalso. unfold targets in Hti'.
      destruct (nth_error requests i') as [req'|] eqn:Hn'; [|discriminate].
      apply (Hlast i' req' Hgt Hn' Hti').
  - assert (Hids : forall e, In e (operations_of (paths (spec st))) ->
               exists i, i < List.length requests
                         /\ targets requests i = Some (fst e)
                         /\ operation_id_of (snd e)
                            = Some (operation_id (snd (fst e)) (fst (fst e)) i)).
    { intros [[p m] x] Hin. apply (@In_operations_lookup _ _ _ _ Hwk) in Hin.
      destruct (Hlww p m x Hin) as (i & pd & Hi & Hti & Hx & Hid & _).
      exists i. subst x. simpl. rewrite Hid. auto. }
    assert (Hnd : NoDup (List.map (fun e => operation_id_of (snd e))
                           (operations_of (paths (spec st))))).
    { apply (NoDup_map_on fst); [apply NoDup_operations_of, Hwk|].
      intros a b Ha Hb Heq.
      destruct (Hids a Ha) as (i & _ & Hta & Hia).
      destruct (Hids b Hb) as (j & _ & Htb & Hjb).
      rewrite Hia, Hjb in Heq. inversion Heq as [Heq'].
      apply operation_id_inj in Heq'. subst j. congruence. }
    revert Hids Hnd. generalize (operations_of (paths (spec st))) as l.
    induction l as [|e l IH]; intros Hids Hnd.
    + exists []. split; [reflexivity | constructor].
    + simpl in Hnd. inversion Hnd as [|? ? Hnotin Hnd']; subst.
      destruct IH as (ids & Hmap & Hnodup); [intros; apply Hids; right; assumption | exact Hnd'|].
      destruct (Hids e (or_introl eq_refl)) as (i & _ & _ & Hie).
      exists (operation_id (snd (fst e)) (fst (fst e)) i :: ids).
      simpl. rewrite Hie, Hmap. split; [reflexivity|].
      constructor; [|exact Hnodup].
      intros Hin. apply Hnotin. rewrite Hie, Hmap. apply in_map, Hin.
Qed.

End Aggregator.

(* ================================================================= *)
(** ** The aggregator on concrete batches *)

(** The aggregator with the reference library functions. *)
Definition aggregate (requests : list string) : result openapi_spec :=
  generate_openapi_json Ref.shlex_split Ref.json_loads Ref.urlparse Ref.parse_qs requests.





Lemma paths_and_operation_ids_witness :
  exists o,
    aggregate ["curl https://api.example.com/users"; "";
               "curl -X get https://api.example.com/users";
               "curl -X POST https://api.example.com/users -d '{}'"] = Ok o
    /\ NoDup (List.map fst (operations o))
    /\ (exists pd,
           lookup_operation o "/users" "get" = Some (VDict pd)
           /\ dict_get pd "operationId" = Some (VStr "get_users_2"))
    /\ exists ids,
        List.map (fun e => operation_id_of (snd e)) (operations o) = List.map Some ids
        /\ NoDup ids.
Proof.
  eexists. split; [vm_compute; reflexivity|].
  match goal with
  | |- NoDup (List.map fst (operations ?o)) /\ _ =>
    destruct (@paths_and_operation_ids
                Ref.shlex_split Ref.json_loads Ref.urlparse Ref.parse_qs
                ["curl https://api.example.com/users"; "";
                 "curl -X get https://api.example.com/users";
                 "curl -X POST https://api.example.com/users -d '{}'"] o)
      as (H1 & H2 & H3)
  end.
  { vm_compute. reflexivity. }
  split; [exact H1|]. split; [|exact H3].
  apply (H2 2 "curl -X get https://api.example.com/users" "/users" "get").
  - reflexivity.
  - vm_compute. reflexivity.
  - intros j req' Hj Hn.
    destruct j as [|[|[|[|j]]]]; try lia.
    + simpl in Hn. inversion Hn; subst req'. vm_compute. discriminate.
    + destruct j; discriminate.
Defined.

(** C6: a header named [authorization], in lower case, with a bearer value
    is meant to register the bearer scheme.  It is left out of the header
    parameters, where names are compared in lower case, and it is not found
    by the lookup of the exact name [Authorization]: the operation has no
    [security] and no scheme is registered.  In the same way a body is
    typed by the default content type when the record holds [content-type]
    in lower case. *)
Theorem header_lookup_is_case_sensitive :
  (exists o pd,
      aggregate ["curl -H 'authorization: Bearer abc123' https://api.example.com/users"]
      = Ok o
      /\ lookup_operation o "/users" "get" = Some (VDict pd)
      /\ dict_get pd "security" = None
      /\ dict_get pd "parameters" = None
      /\ securitySchemes o = [])
  /\ (exists o pd,
         aggregate ["curl -H 'content-type: text/plain' -d hello https://api.example.com/users"]
         = Ok o
         /\ lookup_operation o "/users" "get" = Some (VDict pd)
         /\ dict_get pd "requestBody"
            = Some (request_body "application/json" string_schema)).
Proof.
  split; eexists; eexists; (split; [vm_compute; reflexivity|]);
    repeat split; vm_compute; reflexivity.
Qed.

(** With the names spelled [Authorization] and [Content-Type] the scheme is
    registered and the content type is the one given. *)
Lemma header_lookup_exact_names :
  (exists o pd,
      aggregate ["curl -H 'Authorization: Bearer abc123' https://api.example.com/users"]
      = Ok o
      /\ lookup_operation o "/users" "get" = Some (VDict pd)
      /\ dict_get pd "security" = Some (VList [VDict [("BearerAuth", VList [])]])
      /\ securitySchemes o = [("BearerAuth", http_scheme "bearer")])
  /\ (exists o pd,
         aggregate ["curl -H 'Content-Type: text/plain' -d hello https://api.example.com/users"]
         = Ok o
         /\ lookup_operation o "/users" "get" = Some (VDict pd)
         /\ dict_get pd "requestBody" = Some (request_body "text/plain" string_schema)).
Proof.
  split; eexists; eexists; (split; [vm_compute; reflexivity|]);
    repeat split; vm_compute; reflexivity.
Qed.

(* ================================================================= *)
(** ** The collection converter *)

Ltac unbind H :=
  match type of H with
  | bind ?r _ = Ok _ =>
    let E := fresh "E" in destruct r eqn:E; cbn [bind] in H; [|discriminate]
  end.

Ltac unbind_as H x E :=
  match type of H with
  | bind ?r _ = Ok _ => destruct r as [x|] eqn:E; cbn [bind] in H; [|discriminate]
  end.

Lemma postman_query_parameters_entries qs :
  forall entries, postman_query_parameters qs = Ok entries -> Forall2 query_entry_of qs entries.
Proof.
  induction qs as [|q qs IH]; intros entries H.
  - inversion H. constructor.
  - cbn [postman_query_parameters] in H. unbind H. unbind H.
    inversion H; subst. constructor; [|apply IH; reflexivity].
    unfold postman_query_parameter in E. unbind E. unbind E. unbind E.
    inversion E; subst. eexists. eexists. repeat split. exact E2.
Qed.

Lemma append_parameter_listed operation x :
  parameters_listed operation ->
  parameters_listed (append_parameter operation x)
  /\ parameters_of (append_parameter operation x) = (parameters_of operation ++ [x])%list.
Proof.
  unfold parameters_listed, parameters_of, append_parameter.
  destruct (dict_get operation "parameters") as [[]|] eqn:E; try tauto;
    intros _; rewrite dict_get_set_same; split; auto.
Qed.

Lemma postman_header_step_entries h operation operation' :
  parameters_listed operation ->
  postman_header_step h operation = Ok operation' ->
  parameters_listed operation'
  /\ exists new,
      parameters_of operation' = (parameters_of operation ++ new)%list
      /\ Forall header_entry new.
Proof.
  intros Hl H. unfold postman_header_step in H. unbind H.
  assert (Hsame : parameters_listed operation
                  /\ exists new, parameters_of operation = (parameters_of operation ++ new)%list
                                 /\ Forall header_entry new).
  { split; [exact Hl|]. exists []. rewrite app_nil_r. split; [reflexivity | constructor]. }
  destruct (truthy a); [|inversion H; subst; exact Hsame].
  unbind H. destruct (negb _); [|inversion H; subst; exact Hsame].
  unbind H. inversion H; subst.
  destruct (@append_parameter_listed operation
              (VDict [("name", a); ("in", VStr "header"); ("required", VBool false);
                      ("schema", string_schema); ("example", a1)]) Hl) as [H1 H2].
  split; [exact H1|]. eexists. split; [exact H2|].
  constructor; [|constructor]. eexists. repeat split.
Qed.

Lemma postman_header_steps_entries hs :
  forall operation operation',
    parameters_listed operation ->
    postman_header_steps hs operation = Ok operation' ->
    parameters_listed operation'
    /\ exists new,
        parameters_of operation' = (parameters_of operation ++ new)%list
        /\ Forall header_entry new.
Proof.
  induction hs as [|h hs IH]; intros operation operation' Hl H.
  - inversion H; subst. split; [exact Hl|]. exists []. rewrite app_nil_r.
    split; [reflexivity | constructor].
  - cbn [postman_header_steps] in H. unbind H.
    destruct (@postman_header_step_entries h operation a Hl E) as (Hl1 & new1 & Hp1 & Hn1).
    destruct (IH a operation' Hl1 H) as (Hl2 & new2 & Hp2 & Hn2).
    split; [exact Hl2|]. exists (new1 ++ new2)%list.
    rewrite Hp2, Hp1, app_assoc. split; [reflexivity | apply Forall_app; auto].
Qed.

Section Converter.

Variable json_loads : string -> result value.
Variable urlparse : string -> result Url.t.
Variable py_str : value -> string.

Lemma postman_add_body_parameters request_data method idx schemas operation stored :
  postman_add_body json_loads request_data method idx schemas operation = Ok stored ->
  parameters_of (snd stored) = parameters_of operation.
Proof.
  unfold postman_add_body. intros H. unbind H. unbind H.
  unfold parameters_of.
  destruct a0.
  - unbind H. destruct (json_loads_value json_loads a0); inversion H; subst; simpl;
      rewrite dict_get_set_other by discriminate; reflexivity.
  - inversion H; subst. reflexivity.
Qed.

Lemma postman_add_query_entries query_params operation operation' :
  dict_get operation "parameters" = None ->
  postman_add_query query_params operation = Ok operation' ->
  parameters_listed operation'
  /\ exists qs,
      (if truthy query_params then iter query_params else Ok []) = Ok qs
      /\ Forall2 query_entry_of qs (parameters_of operation').
Proof.
  intros Hnone H. unfold postman_add_query in H.
  destruct (truthy query_params).
  - unbind H. unbind H. inversion H; subst.
    unfold parameters_listed, parameters_of. rewrite dict_get_set_same.
    split; [exact I|]. exists a. split; [reflexivity|].
    apply postman_query_parameters_entries, E0.
  - inversion H; subst. unfold parameters_listed, parameters_of. rewrite Hnone.
    split; [exact I|]. exists []. split; [reflexivity | constructor].
Qed.

(** C9, as amended: an item of a collection either is skipped or stores one
    operation, whose parameters are an entry for each query entry of the
    item, in order, required exactly when the query entry is not disabled,
    followed by header entries, none of which is required, whatever their
    [disabled] flag says. *)
Theorem postman_required_flags idx item o o' :
  postman_item json_loads urlparse py_str idx item o = Ok o' ->
  o' = o
  \/ exists path method operation qs q_entries h_entries,
      paths o' = set_operation (paths o) path method (VDict operation)
      /\ query_entries py_str item = Ok qs
      /\ parameters_of operation = (q_entries ++ h_entries)%list
      /\ Forall2 query_entry_of qs q_entries
      /\ Forall header_entry h_entries.
Proof.
  intros H. unfold postman_item in H.
  unbind_as H request_data Erequest.
  destruct (negb (truthy request_data)); [inversion H; left; reflexivity|].
  right.
  unbind_as H url_info Eurl.
  unbind_as H located Elocated. destruct located as [[raw_url path] query_params].
  unbind_as H m Em.
  unbind_as H method Emethod.
  unbind_as H summary Esummary.
  unbind_as H servers1 Eservers.
  unbind_as H operation1 Equery.
  unbind_as H operation2 Eheaders.
  unbind_as H stored Ebody. destruct stored as [schemas1 operation].
  inversion H; subst o'. cbn [paths].
  pose proof (fun Hnone => @postman_add_query_entries _ _ _ Hnone Equery) as Hquery.
  destruct (Hquery eq_refl) as (Hl & qs & Hqs & Hq).
  unfold postman_add_headers in Eheaders.
  unbind_as Eheaders headers Eh.
  unbind_as Eheaders hs Ehs.
  destruct (@postman_header_steps_entries hs operation1 operation2 Hl Eheaders)
    as (Hl' & new & Hp & Hn).
  exists path, method, operation, qs, (parameters_of operation1), new.
  split; [reflexivity|]. split.
  { unfold query_entries. rewrite Erequest. cbn [bind]. rewrite Eurl. cbn [bind].
    rewrite Elocated. cbn [bind]. exact Hqs. }
  split.
  { rewrite <- Hp.
    apply (@postman_add_body_parameters request_data method idx (schemas o) operation2
             (schemas1, operation) Ebody). }
  split; assumption.
Qed.

End Converter.

(** The converter with the reference library functions. *)
Definition convert (data : value) : response :=
  postman_to_openapi Ref.json_loads Ref.urlparse Ref.py_str data.

Definition sample_item : value :=
  VDict [("name", VStr "List users");
         ("request",
          VDict [("method", VStr "GET");
                 ("url",
                  VDict [("raw", VStr "https://api.example.com/users?page=1");
                         ("path", VList [VStr "users"]);
                         ("query",
                          VList [VDict [("key", VStr "page"); ("value", VStr "1");
                                        ("disabled", VBool true)]])]);
                 ("header",
                  VList [VDict [("key", VStr "X-Trace"); ("value", VStr "1");
                                ("disabled", VBool false)]])])].

Lemma postman_required_flags_witness :
  exists o' operation q_entry h_entry,
    postman_item Ref.json_loads Ref.urlparse Ref.py_str 0 sample_item
      (mk_spec "3.0.0" [] [] [] [] []) = Ok o'
    /\ lookup_operation o' "/users" "get" = Some (VDict operation)
    /\ parameters_of operation = [q_entry; h_entry]
    /\ query_entry_of
         (VDict [("key", VStr "page"); ("value", VStr "1"); ("disabled", VBool true)])
         q_entry
    /\ header_entry h_entry.
Proof.
  destruct (postman_item Ref.json_loads Ref.urlparse Ref.py_str 0 sample_item
              (mk_spec "3.0.0" [] [] [] [] [])) as [o'|] eqn:E;
    [|vm_compute in E; discriminate].
  destruct (postman_required_flags _ _ _ _ _ _ E)
    as [Hsame | (path & method & operation & qs & qe & he & H1 & H2 & H3 & H4 & H5)].
  - exfalso. subst o'. vm_compute in E. discriminate.
  - assert (Hqs : qs = [VDict [("key", VStr "page"); ("value", VStr "1");
                               ("disabled", VBool true)]]).
    { vm_compute in H2. inversion H2. reflexivity. }
    subst qs.
    assert (Ho : o' = mk_spec "3.0.0" [] [VDict [("url", VStr "https://api.example.com")]]
                        (paths o') [] []).
    { vm_compute in E. inversion E. reflexivity. }
    assert (Hpaths : exists op, paths o' = [("/users", [("get", VDict op)])]
                                /\ exists a b, parameters_of op = [a; b]).
    { vm_compute in E. inversion E. eexists. split; [reflexivity|].
      eexists. eexists. vm_compute. reflexivity. }
    destruct Hpaths as (op & Hop & a & b & Hab).
    assert (Hoperation : op = operation /\ path = "/users" /\ method = "get").
    { rewrite Hop in H1. unfold set_operation in H1. simpl in H1.
      inversion H1. auto. }
    destruct Hoperation as (-> & -> & ->).
    rewrite Hab in H3.
    inversion H4 as [|? e1 ? l1 Hq1 Hrest]; subst.
    inversion Hrest; subst. simpl in H3.
    destruct he as [|e2 [|? ?]]; try discriminate.
    inversion H3; subst.
    inversion H5; subst.
    exists o', operation, e1, e2.
    split; [reflexivity|]. split.
    { unfold lookup_operation. rewrite Hop. reflexivity. }
    split; [exact Hab|]. split; assumption.
Defined.

(** C9, as stated, fails: the header of this item is not disabled, and its
    parameter entry is not required. *)
Lemma enabled_header_is_not_required :
  exists o operation,
    convert (VDict [("collection", VDict [("item", VList [sample_item])])])
    = (Document o, 200)
    /\ lookup_operation o "/users" "get" = Some (VDict operation)
    /\ parameters_of operation
       = [VDict [("name", VStr "page"); ("in", VStr "query"); ("required", VBool false);
                 ("schema", string_schema); ("example", VStr "1")];
          VDict [("name", VStr "X-Trace"); ("in", VStr "header"); ("required", VBool false);
                 ("schema", string_schema); ("example", VStr "1")]].
Proof.
  eexists. eexists. split; [vm_compute; reflexivity|].
  split; vm_compute; reflexivity.
Qed.

(* ================================================================= *)
(** ** The shape of the input *)



(* ================================================================= *)
(** ** More about the request extractor *)

Section ExtractorInvariants.

Variable json_loads : string -> result value.

(** What every step of the loop keeps, the loop keeps. *)
Lemma parse_curl_loop_preserves (P : Details.t -> Prop) :
  (forall d arg, P d -> P (Details.with_method d (Str.upper arg))) ->
  (forall d arg, P d -> P (header_step arg d)) ->
  (forall d arg d', P d -> data_step json_loads arg d = Ok d' -> P d') ->
  (forall d arg d', P d -> form_step arg d = Ok d' -> P d') ->
  (forall d part, P d -> Str.startswith part "http" = true -> P (Details.with_url d part)) ->
  forall ts d d', P d -> parse_curl_loop json_loads ts d = Ok d' -> P d'.
Proof.
  intros Hm Hh Hd Hf Hu ts.
  induction ts as [|part _|part arg rest IH2 IH1] using cursor_ind; intros d d' HP H.
  - inversion H; subst. exact HP.
  - simpl in H. destruct (Str.startswith part "http") eqn:E; inversion H; subst; auto.
  - cbn [parse_curl_loop] in H.
    destruct (Str.mem part ["-X"; "--request"]); [eapply IH2; [|exact H]; auto|].
    destruct (Str.mem part ["-H"; "--header"]); [eapply IH2; [|exact H]; auto|].
    destruct (Str.mem part ["-d"; "--data"; "--data-raw"; "--data-binary"]).
    { destruct (data_step json_loads arg d) as [d1|] eqn:E; cbn [bind] in H; [|discriminate].
      eapply IH2; [|exact H]. eapply Hd; eauto. }
    destruct (Str.mem part ["-F"; "--form"]).
    { destruct (form_step arg d) as [d1|] eqn:E; cbn [bind] in H; [|discriminate].
      eapply IH2; [|exact H]. eapply Hf; eauto. }
    destruct (Str.startswith part "http") eqn:E; eapply IH1; try exact H; auto.
Qed.

Lemma not_argument_flag part :
  is_argument_flag part = false ->
  Str.mem part ["-X"; "--request"] = false
  /\ Str.mem part ["-H"; "--header"] = false
  /\ Str.mem part ["-d"; "--data"; "--data-raw"; "--data-binary"] = false
  /\ Str.mem part ["-F"; "--form"] = false.
Proof.
  rewrite is_argument_flag_cases. intros H.
  apply orb_false_iff in H. destruct H as [H H4].
  apply orb_false_iff in H. destruct H as [H H3].
  apply orb_false_iff in H. destruct H as [H1 H2]. auto.
Qed.

(** The extractor composes: when the cursor does not end on a flag that
    waits for its argument, extracting from two token sequences in a row
    is extracting from the first and then, with the record reached, from
    the second. *)
Theorem parse_curl_loop_app (ts1 ts2 : list string) (d : Details.t) :
  dangling ts1 = false ->
  parse_curl_loop json_loads (ts1 ++ ts2) d
  = bind (parse_curl_loop json_loads ts1 d) (parse_curl_loop json_loads ts2).
Proof.
  revert d.
  induction ts1 as [|part _|part arg rest IH2 IH1] using cursor_ind; intros d H.
  - reflexivity.
  - cbn [dangling] in H. destruct (not_argument_flag part H) as (H1 & H2 & H3 & H4).
    change ([part] ++ ts2)%list with (part :: ts2). destruct ts2 as [|a r].
    + simpl. destruct (Str.startswith part "http"); reflexivity.
    + change (parse_curl_loop json_loads (part :: a :: r) d)
        with (if Str.mem part ["-X"; "--request"]
              then parse_curl_loop json_loads r (Details.with_method d (Str.upper a))
              else if Str.mem part ["-H"; "--header"]
              then parse_curl_loop json_loads r (header_step a d)
              else if Str.mem part ["-d"; "--data"; "--data-raw"; "--data-binary"]
              then bind (data_step json_loads a d) (parse_curl_loop json_loads r)
              else if Str.mem part ["-F"; "--form"]
              then bind (form_step a d) (parse_curl_loop json_loads r)
              else if Str.startswith part "http"
              then parse_curl_loop json_loads (a :: r) (Details.with_url d part)
              else parse_curl_loop json_loads (a :: r) d).
      rewrite H1, H2, H3, H4.
      change (parse_curl_loop json_loads [part] d)
        with (if Str.startswith part "http" then Ok (Details.with_url d part) else Ok d).
      destruct (Str.startswith part "http"); reflexivity.
  - cbn [dangling] in H. rewrite is_argument_flag_cases in H.
    change ((part :: arg :: rest) ++ ts2)%list with (part :: arg :: (rest ++ ts2))%list.
    cbn [parse_curl_loop].
    destruct (Str.mem part ["-X"; "--request"]); [apply IH2, H|].
    destruct (Str.mem part ["-H"; "--header"]); [apply IH2, H|].
    destruct (Str.mem part ["-d"; "--data"; "--data-raw"; "--data-binary"]).
    { destruct (data_step json_loads arg d); cbn [bind]; [apply IH2, H | reflexivity]. }
    destruct (Str.mem part ["-F"; "--form"]).
    { destruct (form_step arg d); cbn [bind]; [apply IH2, H | reflexivity]. }
    cbn [orb] in H.
    change (arg :: (rest ++ ts2))%list with ((arg :: rest) ++ ts2)%list.
    destruct (Str.startswith part "http"); apply IH1, H.
Qed.

(** The url of an extracted record is one of the tokens and begins with
    [http]: it is never the empty string. *)
Theorem extracted_url_is_an_http_token (ts : list string) (d : Details.t) (u : string) :
  parse_curl_tokens json_loads ts = Ok d ->
  Details.url d = Some u ->
  In u ts /\ Str.startswith u "http" = true /\ Str.truthy u = true.
Proof.
  intros H Hu. unfold parse_curl_tokens in H. apply parse_curl_loop_url in H.
  rewrite Hu in H. symmetry in H. apply last_map_Some in H.
  unfold url_tokens in H. apply filter_In in H. destruct H as [Hin Hp].
  split; [apply positional_incl, Hin|]. split; [exact Hp|].
  destruct u; [discriminate | reflexivity].
Qed.

Lemma upper_char_idempotent c : Str.upper_char (Str.upper_char c) = Str.upper_char c.
Proof.
  destruct c as [[] [] [] [] [] [] [] []]; vm_compute; reflexivity.
Qed.

Lemma upper_idempotent s : Str.upper (Str.upper s) = Str.upper s.
Proof.
  unfold Str.upper. induction s as [|c s IH]; simpl; [reflexivity|].
  rewrite upper_char_idempotent, IH. reflexivity.
Qed.

(** The method of an extracted record is in upper case: [upper] leaves it
    as it is. *)
Theorem extracted_method_is_upper_case (ts : list string) (d : Details.t) :
  parse_curl_tokens json_loads ts = Ok d ->
  Str.upper (Details.method d) = Details.method d.
Proof.
  unfold parse_curl_tokens.
  apply (parse_curl_loop_preserves
           (fun d => Str.upper (Details.method d) = Details.method d)).
  - intros d0 arg _. simpl. apply upper_idempotent.
  - intros d0 arg H. unfold header_step.
    destruct (Str.split1 ":" arg) as [|k [|v [|? ?]]]; exact H.
  - intros d0 arg d1 H E. unfold data_step in E.
    destruct (json_loads arg) as [v|[]]; inversion E; subst; exact H.
  - intros d0 arg d1 H E. unfold form_step in E.
    destruct (Str.split1 "=" arg) as [|k [|v [|? ?]]]; simpl in E;
      try (inversion E; subst; exact H).
    destruct (setitem _ _ _); simpl in E; inversion E; subst; exact H.
  - intros d0 part H _. exact H.
  - reflexivity.
Qed.

(** The exceptions that leave the extractor: [TypeError], which takes a
    form flag among the tokens, and what [json_loads] raises on a token
    other than [JSONDecodeError], which is caught. *)
Theorem extractor_exceptions (ts : list string) (d : Details.t) (e : exn) :
  parse_curl_loop json_loads ts d = Raise e ->
  (e = TypeError /\ exists t, In t ts /\ Str.mem t ["-F"; "--form"] = true)
  \/ (e <> JSONDecodeError /\ exists t, In t ts /\ json_loads t = Raise e).
Proof.
  revert d.
  induction ts as [|part _|part arg rest IH2 IH1] using cursor_ind; intros d H.
  - discriminate.
  - simpl in H. destruct (Str.startswith part "http"); discriminate.
  - assert (Hrest : forall d0, parse_curl_loop json_loads rest d0 = Raise e ->
               (e = TypeError /\ exists t, In t (part :: arg :: rest)
                                           /\ Str.mem t ["-F"; "--form"] = true)
               \/ (e <> JSONDecodeError
                   /\ exists t, In t (part :: arg :: rest) /\ json_loads t = Raise e)).
    { intros d0 H0. destruct (IH2 d0 H0) as [[He (t & Hin & Ht)]|[He (t & Hin & Ht)]];
        [left | right]; (split; [exact He|]); exists t; (split; [right; right; exact Hin | exact Ht]). }
    cbn [parse_curl_loop] in H.
    destruct (Str.mem part ["-X"; "--request"]); [apply (Hrest _ H)|].
    destruct (Str.mem part ["-H"; "--header"]); [apply (Hrest _ H)|].
    destruct (Str.mem part ["-d"; "--data"; "--data-raw"; "--data-binary"]).
    { destruct (data_step json_loads arg d) as [d1|e1] eqn:E; cbn [bind] in H;
        [apply (Hrest _ H)|].
      inversion H; subst e1. right. unfold data_step in E.
      destruct (json_loads arg) as [v|e1] eqn:Ej; [discriminate|].
      destruct e1; inversion E; subst;
        (split; [discriminate|]); exists arg; (split; [right; left; reflexivity | exact Ej]). }
    destruct (Str.mem part ["-F"; "--form"]) eqn:Ef.
    { destruct (form_step arg d) as [d1|e1] eqn:E; cbn [bind] in H; [apply (Hrest _ H)|].
      inversion H; subst e1. left. split.
      - unfold form_step in E.
        destruct (Str.split1 "=" arg) as [|k [|v [|? ?]]]; simpl in E; try discriminate.
        unfold setitem in E.
        destruct (Details.get d "body" (VDict [])); simpl in E; inversion E; reflexivity.
      - exists part. split; [left; reflexivity | exact Ef]. }
    assert (Hnext : parse_curl_loop json_loads (arg :: rest) d = Raise e
                    \/ exists u, parse_curl_loop json_loads (arg :: rest) (Details.with_url d u)
                                 = Raise e).
    { destruct (Str.startswith part "http"); [right; exists part; exact H | left; exact H]. }
    assert (Hone : forall d0, parse_curl_loop json_loads (arg :: rest) d0 = Raise e ->
               (e = TypeError /\ exists t, In t (part :: arg :: rest)
                                           /\ Str.mem t ["-F"; "--form"] = true)
               \/ (e <> JSONDecodeError
                   /\ exists t, In t (part :: arg :: rest) /\ json_loads t = Raise e)).
    { intros d0 H0. destruct (IH1 d0 H0) as [[He (t & Hin & Ht)]|[He (t & Hin & Ht)]];
        [left | right]; (split; [exact He|]); exists t; (split; [right; exact Hin | exact Ht]). }
    destruct Hnext as [H0|[u H0]]; apply (Hone _ H0).
Qed.

(** Tokens that are neither a flag with an argument nor a url are skipped:
    the record stays as it was. *)
Theorem unrecognized_tokens_are_skipped (ts : list string) (d : Details.t) :
  forallb (fun t => negb (is_argument_flag t) && negb (Str.startswith t "http")) ts = true ->
  parse_curl_loop json_loads ts d = Ok d.
Proof.
  induction ts as [|part rest IH]; intros H; [reflexivity|].
  cbn [forallb] in H. apply andb_prop in H. destruct H as [Hp Hrest].
  apply andb_prop in Hp. destruct Hp as [Hflag Hhttp].
  apply negb_true_iff in Hflag. apply negb_true_iff in Hhttp.
  destruct (not_argument_flag part Hflag) as (H1 & H2 & H3 & H4).
  cbn [parse_curl_loop]. rewrite Hhttp. destruct rest as [|arg rest'].
  - reflexivity.
  - rewrite H1, H2, H3, H4. apply IH, Hrest.
Qed.

Lemma rstrip_by_idempotent p s : Str.rstrip_by p (Str.rstrip_by p s) = Str.rstrip_by p s.
Proof.
  induction s as [|c s IH]; [reflexivity|].
  cbn [Str.rstrip_by]. destruct (Str.rstrip_by p s) as [|c' s'] eqn:E.
  - destruct (p c) eqn:Ec; [reflexivity|]. simpl. rewrite Ec. reflexivity.
  - remember (String c' s') as t eqn:Et. cbn [Str.rstrip_by]. rewrite IH.
    subst t. reflexivity.
Qed.

Lemma lstrip_by_head p s :
  Str.lstrip_by p s = EmptyString
  \/ exists c r, Str.lstrip_by p s = String c r /\ p c = false.
Proof.
  induction s as [|c s IH]; [left; reflexivity|].
  simpl. destruct (p c) eqn:E; [exact IH|]. right. exists c, s. auto.
Qed.

Lemma rstrip_by_head p c r :
  p c = false -> exists r', Str.rstrip_by p (String c r) = String c r'.
Proof.
  intros H. cbn [Str.rstrip_by]. destruct (Str.rstrip_by p r).
  - rewrite H. eexists; reflexivity.
  - eexists; reflexivity.
Qed.

Lemma strip_by_idempotent p s : Str.strip_by p (Str.strip_by p s) = Str.strip_by p s.
Proof.
  unfold Str.strip_by.
  destruct (lstrip_by_head p s) as [E|(c & r & E & Hc)]; rewrite E.
  - reflexivity.
  - destruct (rstrip_by_head p c r Hc) as [r' Er]. rewrite Er.
    simpl Str.lstrip_by. rewrite Hc. rewrite <- Er. apply rstrip_by_idempotent.
Qed.

Lemma strip_idempotent s : Str.strip (Str.strip s) = Str.strip s.
Proof. apply strip_by_idempotent. Qed.

Lemma In_dict_set {A} (d : dict A) k v k0 v0 :
  In (k, v) (dict_set d k0 v0) -> (k = k0 /\ v = v0) \/ In (k, v) d.
Proof.
  induction d as [|[k' v'] d IH]; simpl; intros H.
  - destruct H as [H|[]]. inversion H. left. auto.
  - destruct (String.eqb k' k0) eqn:E.
    + apply String.eqb_eq in E. subst k'. destruct H as [H|H].
      * inversion H. left. auto.
      * right. right. exact H.
    + destruct H as [H|H]; [right; left; exact H|].
      destruct (IH H) as [H'|H']; [left; exact H' | right; right; exact H'].
Qed.

(** The headers of an extracted record: no name occurs twice, and names
    and values carry no white space at either end. *)
Theorem extracted_headers_are_stripped (ts : list string) (d : Details.t) :
  parse_curl_tokens json_loads ts = Ok d ->
  NoDup (keys (Details.headers d))
  /\ forall k v, In (k, v) (Details.headers d) -> Str.strip k = k /\ Str.strip v = v.
Proof.
  unfold parse_curl_tokens.
  apply (parse_curl_loop_preserves
           (fun d => NoDup (keys (Details.headers d))
                     /\ forall k v, In (k, v) (Details.headers d) ->
                                    Str.strip k = k /\ Str.strip v = v)).
  - intros d0 arg H. exact H.
  - intros d0 arg [Hnd Hs]. unfold header_step.
    destruct (Str.split1 ":" arg) as [|k0 [|v0 [|? ?]]]; try (split; assumption).
    simpl. split; [apply NoDup_keys_dict_set, Hnd|].
    intros k v Hin. apply In_dict_set in Hin. destruct Hin as [[-> ->]|Hin].
    + split; apply strip_idempotent.
    + apply Hs, Hin.
  - intros d0 arg d1 H E. unfold data_step in E.
    destruct (json_loads arg) as [v|[]]; inversion E; subst; exact H.
  - intros d0 arg d1 H E. unfold form_step in E.
    destruct (Str.split1 "=" arg) as [|k [|v [|? ?]]]; simpl in E;
      try (inversion E; subst; exact H).
    destruct (setitem _ _ _); simpl in E; inversion E; subst; exact H.
  - intros d0 part H _. exact H.
  - split; [constructor | intros k v []].
Qed.

End ExtractorInvariants.

Lemma parse_curl_loop_app_witness :
  dangling ["curl"; "-X"; "post"] = false
  /\ parse_curl_loop Ref.json_loads
       (["curl"; "-X"; "post"] ++ ["-H"; "Accept : text/plain"; "http://a.example.com/x"])
       Details.initial
     = Ok (Details.mk "POST" (Some "http://a.example.com/x") [("Accept", "text/plain")] VNone).
Proof.
  split; [reflexivity|].
  rewrite (@parse_curl_loop_app Ref.json_loads ["curl"; "-X"; "post"]
             ["-H"; "Accept : text/plain"; "http://a.example.com/x"] Details.initial eq_refl).
  vm_compute. reflexivity.
Defined.

Lemma extracted_url_is_an_http_token_witness :
  parse_curl_tokens Ref.json_loads ["curl"; "-X"; "PUT"; "https://api.example.com/users/7"]
  = Ok (Details.mk "PUT" (Some "https://api.example.com/users/7") [] VNone)
  /\ Str.startswith "https://api.example.com/users/7" "http" = true.
Proof.
  split; [vm_compute; reflexivity|].
  apply (@extracted_url_is_an_http_token Ref.json_loads
           ["curl"; "-X"; "PUT"; "https://api.example.com/users/7"]
           (Details.mk "PUT" (Some "https://api.example.com/users/7") [] VNone)
           "https://api.example.com/users/7"); reflexivity.
Defined.

Lemma extracted_method_is_upper_case_witness :
  parse_curl_tokens Ref.json_loads ["curl"; "--request"; "patch"; "http://a.example.com/x"]
  = Ok (Details.mk "PATCH" (Some "http://a.example.com/x") [] VNone)
  /\ Str.upper "PATCH" = "PATCH".
Proof.
  split; [vm_compute; reflexivity|].
  apply (@extracted_method_is_upper_case Ref.json_loads
           ["curl"; "--request"; "patch"; "http://a.example.com/x"]
           (Details.mk "PATCH" (Some "http://a.example.com/x") [] VNone)).
  vm_compute. reflexivity.
Defined.

Lemma extractor_exceptions_witness :
  parse_curl_loop Ref.json_loads ["curl"; "--form"; "a=b"] Details.initial = Raise TypeError
  /\ exists t, In t ["curl"; "--form"; "a=b"] /\ Str.mem t ["-F"; "--form"] = true.
Proof.
  split; [reflexivity|].
  destruct (@extractor_exceptions Ref.json_loads ["curl"; "--form"; "a=b"]
              Details.initial TypeError eq_refl) as [[_ H]|[_ (t & Hin & Ht)]].
  - exact H.
  - exfalso. destruct Hin as [<-|[<-|[<-|[]]]]; vm_compute in Ht; discriminate.
Defined.

Lemma unrecognized_tokens_are_skipped_witness :
  parse_curl_loop Ref.json_loads ["curl"; "--verbose"; "-k"; "ftp://a.example.com/x"]
    Details.initial = Ok Details.initial.
Proof.
  apply (@unrecognized_tokens_are_skipped Ref.json_loads
           ["curl"; "--verbose"; "-k"; "ftp://a.example.com/x"] Details.initial).
  reflexivity.
Defined.

Lemma extracted_headers_are_stripped_witness :
  parse_curl_tokens Ref.json_loads
    ["curl"; "-H"; " Accept :  text/plain "; "-H"; "Accept: */*"; "http://a.example.com/x"]
  = Ok (Details.mk "GET" (Some "http://a.example.com/x") [("Accept", "*/*")] VNone)
  /\ NoDup (keys [("Accept", "*/*")])
  /\ forall k v, In (k, v) [("Accept", "*/*")] -> Str.strip k = k /\ Str.strip v = v.
Proof.
  split; [vm_compute; reflexivity|].
  apply (@extracted_headers_are_stripped Ref.json_loads
           ["curl"; "-H"; " Accept :  text/plain "; "-H"; "Accept: */*";
            "http://a.example.com/x"]
           (Details.mk "GET" (Some "http://a.example.com/x") [("Accept", "*/*")] VNone)).
  vm_compute. reflexivity.
Defined.

(* ================================================================= *)
(** ** More about the schema inferrer *)

(** Induction on a value, through the lists it nests. *)
Lemma value_nested_ind (P : value -> Prop) :
  P VNone ->
  (forall b, P (VBool b)) ->
  (forall z, P (VInt z)) ->
  (forall x, P (VFloat x)) ->
  (forall s, P (VStr s)) ->
  (forall l, Forall P l -> P (VList l)) ->
  (forall d, Forall (fun kv => P (snd kv)) d -> P (VDict d)) ->
  forall v, P v.
Proof.
  intros HN HB HI HF HS HL HD.
  fix IH 1. intros [|b|z|x|s|l|d].
  - exact HN.
  - apply HB.
  - apply HI.
  - apply HF.
  - apply HS.
  - apply HL.
    exact ((fix go (l : list value) : Forall P l :=
              match l with
              | [] => Forall_nil P
              | v :: r => Forall_cons v (IH v) (go r)
              end) l).
  - apply HD.
    exact ((fix go (d : list (string * value)) : Forall (fun kv => P (snd kv)) d :=
              match d with
              | [] => Forall_nil _
              | kv :: r => Forall_cons kv (IH (snd kv)) (go r)
              end) d).
Qed.


(* ================================================================= *)
(** ** More about the aggregator *)

Lemma add_security_effect d ss pd :
  add_security (Details.headers d) ss pd =
  match expected_security d with
  | Some name =>
    (dict_set ss name (http_scheme (scheme_of name)),
     dict_set pd "security" (VList [VDict [(name, VList [])]]))
  | None => (ss, pd)
  end.
Proof.
  unfold add_security, expected_security.
  destruct (dict_get (Details.headers d) "Authorization") as [a|]; [|reflexivity].
  destruct (Str.truthy a); [|reflexivity].
  destruct (Str.startswith (Str.lower a) "bearer "); [reflexivity|].
  destruct (Str.startswith (Str.lower a) "basic "); reflexivity.
Qed.

Lemma add_request_body_effect d oid ss pd :
  add_request_body d oid ss pd =
  (if has_schema d
   then dict_set ss (Str.f ["Schema_"; oid]) (infer_json_schema (Details.body d))
   else ss,
   match expected_request_body d oid with
   | Some rb => dict_set pd "requestBody" rb
   | None => pd
   end).
Proof.
  unfold add_request_body, expected_request_body, has_schema, content_type_of.
  destruct (truthy (Details.body d)); [|reflexivity].
  cbn [andb]. destruct (_ && _); reflexivity.
Qed.

Lemma mem_false_not_In x xs : Str.mem x xs = false -> ~ In x xs.
Proof.
  unfold Str.mem. intros H Hin.
  assert (existsb (String.eqb x) xs = true); [|congruence].
  apply existsb_exists. exists x. split; [exact Hin | apply String.eqb_refl].
Qed.

Lemma mem_true_In x xs : Str.mem x xs = true -> In x xs.
Proof.
  unfold Str.mem. intros H. apply existsb_exists in H. destruct H as (y & Hin & E).
  apply String.eqb_eq in E. subst. exact Hin.
Qed.

Lemma lower_char_idempotent c : Str.lower_char (Str.lower_char c) = Str.lower_char c.
Proof.
  destruct c as [[] [] [] [] [] [] [] []]; vm_compute; reflexivity.
Qed.

Lemma lower_idempotent s : Str.lower (Str.lower s) = Str.lower s.
Proof.
  unfold Str.lower. induction s as [|c s IH]; simpl; [reflexivity|].
  rewrite lower_char_idempotent, IH. reflexivity.
Qed.

Lemma or_else_truthy a : Str.truthy (Str.or_else a "/") = true.
Proof. unfold Str.or_else. destruct (Str.truthy a) eqn:E; [exact E | reflexivity]. Qed.

Section AggregatorInvariants.

Variable shlex_split : string -> result (list string).
Variable json_loads : string -> result value.
Variable urlparse : string -> result Url.t.
Variable parse_qs : string -> list (string * (string * list string)).

Local Abbreviation parse := (parse_curl shlex_split json_loads).
Local Abbreviation process := (process_request shlex_split json_loads urlparse parse_qs).
Local Abbreviation run := (process_requests shlex_split json_loads urlparse parse_qs).
Local Abbreviation aggregate := (generate_openapi_json shlex_split json_loads urlparse parse_qs).
Local Abbreviation server_of := (origin shlex_split json_loads urlparse).

(** Everything one turn of the loop does to the state. *)
Lemma process_request_effect i req st st' :
  process i req st = Ok st' ->
  (st' = st /\ server_of req = None)
  \/ exists d u p pd,
      parse req = Ok d /\ Details.url d = Some u /\ urlparse u = Ok p
      /\ server_of req = Some (Str.f [Url.scheme p; "://"; Url.netloc p])
      /\ paths (spec st')
         = set_operation (paths (spec st)) (Str.or_else (Url.path p) "/")
             (Str.lower (Details.method d)) (VDict pd)
      /\ dict_get pd "summary"
         = Some (VStr (Str.f [Details.method d; " "; Str.or_else (Url.path p) "/"]))
      /\ dict_get pd "operationId"
         = Some (VStr (operation_id (Str.lower (Details.method d))
                         (Str.or_else (Url.path p) "/") i))
      /\ dict_get pd "servers"
         = Some (VList [server_entry (Str.f [Url.scheme p; "://"; Url.netloc p])])
      /\ dict_get pd "responses"
         = Some (VDict [("200", VDict [("description", VStr "Successful response")])])
      /\ dict_get pd "requestBody"
         = expected_request_body d
             (operation_id (Str.lower (Details.method d)) (Str.or_else (Url.path p) "/") i)
      /\ dict_get pd "security"
         = option_map (fun name => VList [VDict [(name, VList [])]]) (expected_security d)
      /\ securitySchemes (spec st')
         = match expected_security d with
           | Some name =>
             dict_set (securitySchemes (spec st)) name (http_scheme (scheme_of name))
           | None => securitySchemes (spec st)
           end
      /\ schemas (spec st')
         = (if has_schema d
            then dict_set (schemas (spec st))
                   (Str.f ["Schema_";
                           operation_id (Str.lower (Details.method d))
                             (Str.or_else (Url.path p) "/") i])
                   (infer_json_schema (Details.body d))
            else schemas (spec st))
      /\ servers (spec st')
         = (if Str.mem (Str.f [Url.scheme p; "://"; Url.netloc p]) (unique_servers st)
            then servers (spec st)
            else (servers (spec st)
                  ++ [server_entry (Str.f [Url.scheme p; "://"; Url.netloc p])])%list)
      /\ unique_servers st'
         = (if Str.mem (Str.f [Url.scheme p; "://"; Url.netloc p]) (unique_servers st)
            then unique_servers st
            else (unique_servers st ++ [Str.f [Url.scheme p; "://"; Url.netloc p]])%list)
      /\ openapi (spec st') = openapi (spec st)
      /\ info (spec st') = info (spec st).
Proof.
  unfold process_request, origin.
  destruct (negb (Str.truthy (Str.strip req)));
    [intros H; inversion H; left; auto|].
  destruct (parse req) as [d|e]; cbn [bind]; [|discriminate].
  destruct (Details.url d) as [u|] eqn:Hurl; [|intros H; inversion H; left; auto].
  destruct (negb (Str.truthy u)); [intros H; inversion H; left; auto|].
  destruct (urlparse u) as [p|e] eqn:Hp; cbn [bind]; [|discriminate].
  intros H. right. exists d, u, p.
  set (path := Str.or_else (Url.path p) "/") in *.
  set (method := Str.lower (Details.method d)) in *.
  set (oid := operation_id method path i) in *.
  set (server_url := Str.f [Url.scheme p; "://"; Url.netloc p]) in *.
  set (pd0 := add_header_parameters _ (add_query_parameters _ _)) in H.
  assert (Hget0 : forall k, k <> "parameters" ->
             dict_get pd0 k
             = dict_get [("summary", VStr (Str.f [Details.method d; " "; path]));
                         ("operationId", VStr oid);
                         ("servers", VList [VDict [("url", VStr server_url)]]);
                         ("responses",
                          VDict [("200",
                                  VDict [("description", VStr "Successful response")])])] k).
  { intros k Hk. unfold pd0.
    rewrite add_header_parameters_other, add_query_parameters_other by exact Hk.
    reflexivity. }
  rewrite add_security_effect in H.
  set (pd1 := match expected_security d with
              | Some name => dict_set pd0 "security" (VList [VDict [(name, VList [])]])
              | None => pd0
              end).
  assert (Hs : (let '(securitySchemes1, path_details) :=
                    match expected_security d with
                    | Some name =>
                      (dict_set (securitySchemes (spec st)) name (http_scheme (scheme_of name)),
                       dict_set pd0 "security" (VList [VDict [(name, VList [])]]))
                    | None => (securitySchemes (spec st), pd0)
                    end in
                (securitySchemes1, path_details))
               = (match expected_security d with
                  | Some name =>
                    dict_set (securitySchemes (spec st)) name (http_scheme (scheme_of name))
                  | None => securitySchemes (spec st)
                  end, pd1)).
  { unfold pd1. destruct (expected_security d); reflexivity. }
  assert (Hget1 : forall k, k <> "parameters" -> k <> "security" ->
                            dict_get pd1 k = dict_get pd0 k).
  { intros k _ Hk. unfold pd1. destruct (expected_security d); [|reflexivity].
    apply dict_get_set_other. congruence. }
  assert (Hsec1 : dict_get pd1 "security"
                  = option_map (fun name => VList [VDict [(name, VList [])]])
                      (expected_security d)).
  { unfold pd1. destruct (expected_security d); simpl.
    - apply dict_get_set_same.
    - rewrite Hget0 by discriminate. reflexivity. }
  destruct (expected_security d) as [name|] eqn:Esec;
    rewrite add_request_body_effect in H; fold pd1 in H;
    set (pd2 := match expected_request_body d oid with
                | Some rb => dict_set pd1 "requestBody" rb
                | None => pd1
                end) in H;
    (assert (Hget2 : forall k, k <> "requestBody" -> dict_get pd2 k = dict_get pd1 k);
     [intros k Hk; unfold pd2; destruct (expected_request_body d oid);
      [apply dict_get_set_other; congruence | reflexivity]|]);
    (assert (Hbody : dict_get pd2 "requestBody" = expected_request_body d oid);
     [unfold pd2; destruct (expected_request_body d oid);
      [apply dict_get_set_same
      | rewrite Hget1, Hget0 by discriminate; reflexivity]|]);
    exists pd2; inversion H; subst st'; cbn [spec paths securitySchemes schemas servers
                                              unique_servers openapi info];
    unfold server_entry;
    repeat split; try reflexivity; try assumption;
    try (rewrite Hget2, Hget1, Hget0 by discriminate; reflexivity);
    try (rewrite Hget2 by discriminate; exact Hsec1);
    try (destruct (Str.mem server_url (unique_servers st)); reflexivity).
Qed.

(** What holds at the start and is kept by every turn of the loop holds of
    the state the document is taken from. *)
Lemma aggregate_invariant (P : state -> Prop) :
  P (mk_state initial_spec []) ->
  (forall i req st st', P st -> process i req st = Ok st' -> P st') ->
  forall requests o, aggregate requests = Ok o -> exists st, spec st = o /\ P st.
Proof.
  intros H0 Hstep requests o H. unfold generate_openapi_json in H.
  assert (Hrun : forall rs i st st', P st -> run i rs st = Ok st' -> P st').
  { induction rs as [|r rs IH]; intros i st st' HP Hr.
    - inversion Hr; subst. exact HP.
    - cbn [process_requests] in Hr.
      destruct (process i r st) as [st1|] eqn:E; cbn [bind] in Hr; [|discriminate].
      apply (IH (S i) st1 st'); [eapply Hstep; eauto | exact Hr]. }
  destruct (run 0 requests (mk_state initial_spec [])) as [st|] eqn:E;
    cbn [bind] in H; [|discriminate].
  inversion H; subst. exists st. split; [reflexivity|]. eapply Hrun; eauto.
Qed.

(* ----------------------------------------------------------------- *)
(** *** Servers *)

Lemma process_requests_servers rs :
  forall i st st',
    servers (spec st) = List.map server_entry (unique_servers st) ->
    NoDup (unique_servers st) ->
    run i rs st = Ok st' ->
    servers (spec st') = List.map server_entry (unique_servers st')
    /\ NoDup (unique_servers st')
    /\ (forall s, In s (unique_servers st) -> In s (unique_servers st'))
    /\ (forall req s, In req rs -> server_of req = Some s -> In s (unique_servers st')).
Proof.
  induction rs as [|r rs IH]; intros i st st' Hmap Hnd Hrun.
  - inversion Hrun; subst. repeat split; auto. intros req s [].
  - cbn [process_requests] in Hrun.
    destruct (process i r st) as [st1|] eqn:E; cbn [bind] in Hrun; [|discriminate].
    assert (H1 : servers (spec st1) = List.map server_entry (unique_servers st1)
                 /\ NoDup (unique_servers st1)
                 /\ (forall s, In s (unique_servers st) -> In s (unique_servers st1))
                 /\ (forall s, server_of r = Some s -> In s (unique_servers st1))).
    { destruct (process_request_effect i r st E)
        as [[-> Ho] | (d & u & p & pd & _ & _ & _ & Ho & _ & _ & _ & _ & _ & _ & _ & _ & _
                       & Hsv & Hus & _)].
      - repeat split; auto. intros s Hs. rewrite Ho in Hs. discriminate.
      - rewrite Hsv, Hus, Ho.
        destruct (Str.mem (Str.f [Url.scheme p; "://"; Url.netloc p]) (unique_servers st))
          eqn:Em.
        + repeat split; auto. intros s Hs. inversion Hs; subst.
          apply mem_true_In, Em.
        + split; [rewrite map_app, Hmap; reflexivity|]. split.
          * apply NoDup_app; [exact Hnd | repeat constructor; simpl; tauto|].
            intros x Hx [<-|[]]. exact (mem_false_not_In _ _ Em Hx).
          * split; intros s Hs; apply in_or_app; [left; exact Hs|].
            right. inversion Hs; subst. left. reflexivity. }
    destruct H1 as (Hmap1 & Hnd1 & Hkeep1 & Hnew1).
    destruct (IH (S i) st1 st' Hmap1 Hnd1 Hrun) as (Hmap' & Hnd' & Hkeep' & Hnew').
    repeat split; auto.
    intros req s [<-|Hin] Hs; [apply Hkeep', Hnew1, Hs | exact (Hnew' req s Hin Hs)].
Qed.


(* ----------------------------------------------------------------- *)
(** *** Operations *)

(** Every operation of a document is stored under a path that is not empty
    and a method in lower case, and carries a summary, an [operationId],
    its server and the answer [200]. *)
Theorem operations_are_complete (requests : list string) (o : openapi_spec) :
  aggregate requests = Ok o ->
  forall path method operation,
    lookup_operation o path method = Some operation ->
    Str.truthy path = true
    /\ Str.lower method = method
    /\ exists pd summary id server,
        operation = VDict pd
        /\ dict_get pd "summary" = Some (VStr summary)
        /\ dict_get pd "operationId" = Some (VStr id)
        /\ dict_get pd "servers" = Some (VList [server_entry server])
        /\ dict_get pd "responses"
           = Some (VDict [("200", VDict [("description", VStr "Successful response")])]).
Proof.
  intros H.
  destruct (@aggregate_invariant
              (fun st => forall path method operation,
                   lookup (paths (spec st)) path method = Some operation ->
                   Str.truthy path = true
                   /\ Str.lower method = method
                   /\ exists pd summary id server,
                       operation = VDict pd
                       /\ dict_get pd "summary" = Some (VStr summary)
                       /\ dict_get pd "operationId" = Some (VStr id)
                       /\ dict_get pd "servers" = Some (VList [server_entry server])
                       /\ dict_get pd "responses"
                          = Some (VDict [("200",
                                          VDict [("description",
                                                  VStr "Successful response")])]))
              ) with (requests := requests) (o := o) as (st & <- & HP); [| |exact H|exact HP].
  - intros path method operation Hl. discriminate.
  - intros i req st st' HP Hp path method operation Hl.
    destruct (process_request_effect i req st Hp)
      as [[-> _] | (d & u & p & pd & _ & _ & _ & _ & Hpaths & Hsum & Hid & Hsrv & Hresp & _)].
    + apply HP, Hl.
    + rewrite Hpaths, lookup_set_operation in Hl.
      destruct (String.eqb (Str.or_else (Url.path p) "/") path
                && String.eqb (Str.lower (Details.method d)) method) eqn:E.
      * apply andb_prop in E. destruct E as [E1 E2].
        apply String.eqb_eq in E1. apply String.eqb_eq in E2. subst path method.
        inversion Hl; subst operation.
        split; [apply or_else_truthy|]. split; [apply lower_idempotent|].
        eexists. eexists. eexists. eexists. repeat split; eassumption.
      * apply HP, Hl.
Qed.

(* ----------------------------------------------------------------- *)
(** *** References inside the document *)

Lemma dict_get_set_kept {A} (d : dict A) k v k' :
  dict_get d k' <> None -> dict_get (dict_set d k v) k' <> None.
Proof.
  intros H. rewrite dict_get_set. destruct (String.eqb k k'); [discriminate | exact H].
Qed.

(** No reference dangles: the schema an operation refers to by name is
    among the schemas of the document, and the security scheme an
    operation requires is among its security schemes, which hold nothing
    but the bearer and the basic scheme under their two names. *)
Theorem references_are_registered (requests : list string) (o : openapi_spec) :
  aggregate requests = Ok o ->
  (forall path method operation r,
      lookup_operation o path method = Some operation ->
      at_path operation schema_reference = Some (VStr r) ->
      exists name,
        r = Str.f ["#/components/schemas/"; name] /\ dict_get (schemas o) name <> None)
  /\ (forall path method pd v,
         lookup_operation o path method = Some (VDict pd) ->
         dict_get pd "security" = Some v ->
         exists name,
           v = VList [VDict [(name, VList [])]] /\ dict_get (securitySchemes o) name <> None)
  /\ (forall name scheme,
         dict_get (securitySchemes o) name = Some scheme ->
         (name = "BearerAuth" /\ scheme = http_scheme "bearer")
         \/ (name = "BasicAuth" /\ scheme = http_scheme "basic")).
Proof.
  intros H.
  destruct (@aggregate_invariant
              (fun st =>
                 (forall path method operation r,
                     lookup (paths (spec st)) path method = Some operation ->
                     at_path operation schema_reference = Some (VStr r) ->
                     exists name,
                       r = Str.f ["#/components/schemas/"; name]
                       /\ dict_get (schemas (spec st)) name <> None)
                 /\ (forall path method pd v,
                        lookup (paths (spec st)) path method = Some (VDict pd) ->
                        dict_get pd "security" = Some v ->
                        exists name,
                          v = VList [VDict [(name, VList [])]]
                          /\ dict_get (securitySchemes (spec st)) name <> None)
                 /\ (forall name scheme,
                        dict_get (securitySchemes (spec st)) name = Some scheme ->
                        (name = "BearerAuth" /\ scheme = http_scheme "bearer")
                        \/ (name = "BasicAuth" /\ scheme = http_scheme "basic")))
           ) with (requests := requests) (o := o) as (st & <- & HP); [| |exact H|exact HP].
  - repeat split; intros; discriminate.
  - intros i req st st' (HR & HS & HK) Hp.
    destruct (process_request_effect i req st Hp)
      as [[-> _] | (d & u & p & pd & _ & _ & _ & _ & Hpaths & _ & _ & _ & _ & Hbody & Hsec
                    & Hschemes & Hschemas & _)];
      [auto|].
    set (path0 := Str.or_else (Url.path p) "/") in *.
    set (method0 := Str.lower (Details.method d)) in *.
    set (oid := operation_id method0 path0 i) in *.
    assert (Hkept : forall name, dict_get (schemas (spec st)) name <> None ->
                                 dict_get (schemas (spec st')) name <> None).
    { intros name Hn. rewrite Hschemas. destruct (has_schema d); [|exact Hn].
      apply dict_get_set_kept, Hn. }
    assert (Hkept' : forall name, dict_get (securitySchemes (spec st)) name <> None ->
                                  dict_get (securitySchemes (spec st')) name <> None).
    { intros name Hn. rewrite Hschemes. destruct (expected_security d); [|exact Hn].
      apply dict_get_set_kept, Hn. }
    split; [|split].
    + intros path method operation r Hl Hr.
      rewrite Hpaths, lookup_set_operation in Hl.
      destruct (String.eqb path0 path && String.eqb method0 method).
      * inversion Hl; subst operation. clear Hl.
        unfold schema_reference in Hr. cbn [at_path] in Hr. rewrite Hbody in Hr.
        unfold expected_request_body, request_body in Hr.
        destruct (truthy (Details.body d)) eqn:Et; [|discriminate].
        cbn [at_path dict_get] in Hr.
        change (String.eqb "required" "content") with false in Hr.
        change (String.eqb "content" "content") with true in Hr.
        cbn [dict_get] in Hr.
        destruct (String.eqb (content_type_of d) "application/json") eqn:Ec;
          [|simpl in Hr; discriminate].
        cbn [andb] in Hr.
        destruct (isinstance (Details.body d) Tdict) eqn:Ei.
        -- simpl in Hr. inversion Hr; subst r.
           exists (Str.f ["Schema_"; oid]). split; [reflexivity|].
           rewrite Hschemas. unfold has_schema. rewrite Et, Ec, Ei. cbn [andb].
           rewrite dict_get_set_same. discriminate.
        -- simpl in Hr. discriminate.
      * destruct (HR path method operation r Hl Hr) as (name & Hn1 & Hn2).
        exists name. split; [exact Hn1 | apply Hkept, Hn2].
    + intros path method pd' v Hl Hv.
      rewrite Hpaths, lookup_set_operation in Hl.
      destruct (String.eqb path0 path && String.eqb method0 method).
      * inversion Hl; subst pd'. rewrite Hsec in Hv.
        destruct (expected_security d) as [name|]; [|discriminate].
        simpl in Hv. inversion Hv; subst v. exists name. split; [reflexivity|].
        rewrite Hschemes, dict_get_set_same. discriminate.
      * destruct (HS path method pd' v Hl Hv) as (name & Hn1 & Hn2).
        exists name. split; [exact Hn1 | apply Hkept', Hn2].
    + intros name scheme Hn. rewrite Hschemes in Hn.
      destruct (expected_security d) as [name0|] eqn:Es; [|apply HK, Hn].
      rewrite dict_get_set in Hn. destruct (String.eqb name0 name) eqn:En; [|apply HK, Hn].
      apply String.eqb_eq in En. subst name0. inversion Hn; subst scheme.
      unfold expected_security in Es.
      destruct (dict_get (Details.headers d) "Authorization") as [a|]; [|discriminate].
      destruct (Str.truthy a); [|discriminate].
      destruct (Str.startswith (Str.lower a) "bearer ");
        [inversion Es; left; split; reflexivity|].
      destruct (Str.startswith (Str.lower a) "basic ");
        [inversion Es; right; split; reflexivity | discriminate].
Qed.

(* ----------------------------------------------------------------- *)
(** *** Batches in a row, and blank transcripts *)

Lemma process_requests_app a :
  forall b i st,
    run i (a ++ b) st = bind (run i a st) (run (i + List.length a) b).
Proof.
  induction a as [|r a IH]; intros b i st.
  - simpl. rewrite Nat.add_0_r. reflexivity.
  - change ((r :: a) ++ b)%list with (r :: (a ++ b))%list.
    cbn [process_requests List.length].
    destruct (process i r st) as [st1|]; cbn [bind]; [|reflexivity].
    rewrite IH. replace (S i + List.length a) with (i + S (List.length a)) by lia.
    reflexivity.
Qed.

Lemma process_requests_blank blanks :
  forall i st,
    forallb (fun r => negb (Str.truthy (Str.strip r))) blanks = true ->
    run i blanks st = Ok st.
Proof.
  induction blanks as [|r blanks IH]; intros i st H; [reflexivity|].
  cbn [forallb] in H. apply andb_prop in H. destruct H as [Hr H].
  cbn [process_requests]. unfold process_request at 1. rewrite Hr. cbn [bind].
  apply IH, H.
Qed.

(** Blank transcripts at the end of a batch change nothing: the outcome,
    document or exception, is that of the batch without them; and a batch
    of blank transcripts gives the document with no path and no server. *)
Theorem trailing_blank_transcripts_change_nothing (requests blanks : list string) :
  forallb (fun r => negb (Str.truthy (Str.strip r))) blanks = true ->
  aggregate (requests ++ blanks) = aggregate requests
  /\ aggregate blanks = Ok initial_spec.
Proof.
  intros H. unfold generate_openapi_json. split.
  - rewrite process_requests_app.
    destruct (run 0 requests (mk_state initial_spec [])) as [st|]; cbn [bind];
      [|reflexivity].
    rewrite (process_requests_blank blanks _ st H). reflexivity.
  - rewrite (process_requests_blank blanks 0 _ H). reflexivity.
Qed.

End AggregatorInvariants.


Lemma operations_are_complete_witness :
  exists o pd,
    aggregate ["curl -X Post https://a.example.com"] = Ok o
    /\ lookup_operation o "/" "post" = Some (VDict pd)
    /\ dict_get pd "responses"
       = Some (VDict [("200", VDict [("description", VStr "Successful response")])]).
Proof.
  eexists.
  match goal with
  | |- exists pd, ?agg = Ok ?o /\ _ =>
    assert (E : agg = Ok o) by (vm_compute; reflexivity)
  end.
  match type of E with
  | _ = Ok ?o =>
    assert (L : exists x, lookup_operation o "/" "post" = Some x)
      by (eexists; vm_compute; reflexivity)
  end.
  destruct L as [x L].
  destruct (@operations_are_complete
              Ref.shlex_split Ref.json_loads Ref.urlparse Ref.parse_qs _ _ E "/" "post" x L)
    as (_ & _ & pd & summary & id & server & -> & _ & _ & _ & Hr).
  exists pd. split; [exact E|]. split; [exact L | exact Hr].
Defined.

Lemma references_are_registered_witness :
  exists o,
    aggregate ["curl -H 'Authorization: Basic dXNlcjpwYXNz' -d '{}' https://a.example.com/x";
               "curl -d '[1]' https://a.example.com/y"] = Ok o
    /\ dict_get (securitySchemes o) "BasicAuth" = Some (http_scheme "basic")
    /\ forall name scheme,
        dict_get (securitySchemes o) name = Some scheme ->
        (name = "BearerAuth" /\ scheme = http_scheme "bearer")
        \/ (name = "BasicAuth" /\ scheme = http_scheme "basic").
Proof.
  eexists.
  match goal with
  | |- ?agg = Ok ?o /\ _ => assert (E : agg = Ok o) by (vm_compute; reflexivity)
  end.
  split; [exact E|]. split; [vm_compute; reflexivity|].
  apply (@references_are_registered
           Ref.shlex_split Ref.json_loads Ref.urlparse Ref.parse_qs _ _ E).
Defined.

Lemma trailing_blank_transcripts_change_nothing_witness :
  aggregate (["curl https://a.example.com/x"] ++ [""; "   "])
  = aggregate ["curl https://a.example.com/x"]
  /\ aggregate [""; "   "] = Ok initial_spec.
Proof.
  apply (@trailing_blank_transcripts_change_nothing
           Ref.shlex_split Ref.json_loads Ref.urlparse Ref.parse_qs
           ["curl https://a.example.com/x"] [""; "   "]).
  reflexivity.
Defined.

(* ================================================================= *)
(** ** More about the routes *)

Lemma leading_strings_map ss : leading_strings (List.map VStr ss) = (ss, []).
Proof.
  induction ss as [|s ss IH]; [reflexivity|].
  cbn [List.map leading_strings]. rewrite IH. reflexivity.
Qed.

Lemma leading_strings_rest l :
  forallb is_string l = false -> snd (leading_strings l) <> [].
Proof.
  induction l as [|v l IH]; [discriminate|].
  cbn [forallb]. destruct v; cbn [is_string isinstance type_of issubclass pytype_eqb orb andb];
    try (intros _; simpl; discriminate).
  intros H. cbn [leading_strings]. destruct (leading_strings l) as [ss rest]. apply IH, H.
Qed.

Lemma request_lines_stripped file_content r :
  In r (request_lines file_content) -> Str.truthy r = true /\ Str.strip r = r.
Proof.
  unfold request_lines. intros H. apply in_map_iff in H. destruct H as (line & <- & Hin).
  apply filter_In in Hin. destruct Hin as [_ Ht].
  split; [exact Ht | apply strip_idempotent].
Qed.

Section Routes.

Variable shlex_split : string -> result (list string).
Variable json_loads : string -> result value.
Variable urlparse : string -> result Url.t.
Variable parse_qs : string -> list (string * (string * list string)).

Local Abbreviation parse := (parse_curl shlex_split json_loads).
Local Abbreviation aggregator := (generate_openapi_json shlex_split json_loads urlparse parse_qs).
Local Abbreviation generate_route := (generate shlex_split json_loads urlparse parse_qs).
Local Abbreviation upload_route := (upload_curl_file shlex_split json_loads urlparse parse_qs).
Local Abbreviation validate_route := (validate_curl shlex_split json_loads).

(** What [/generate_openapi] does with other shapes of input: a body that
    is not an object raises, an object without [requests] gets the
    document of the empty batch, and a list that holds anything but
    strings never gets a document. *)
Theorem generate_on_other_shapes :
  (forall data, isinstance data Tdict = false -> generate_route data = Raise AttributeError)
  /\ (forall data,
         dict_get data "requests" = None ->
         generate_route (VDict data) = Ok (Document initial_spec, 200))
  /\ (forall data l,
         dict_get data "requests" = Some (VList l) ->
         forallb is_string l = false ->
         raises (generate_route (VDict data)) = true).
Proof.
  split; [|split].
  - intros data H. destruct data; try reflexivity. discriminate.
  - intros data H. unfold generate, get, dict_get_default. rewrite H. reflexivity.
  - intros data l H Hl. unfold generate, get, dict_get_default. rewrite H. cbn [bind].
    cbn [isinstance type_of issubclass pytype_eqb orb negb].
    pose proof (leading_strings_rest l Hl) as Hrest.
    destruct (leading_strings l) as [ss [|v rest]]; [exfalso; apply Hrest; reflexivity|].
    destruct (aggregator ss); reflexivity.
Qed.


(** The three answers of [/validate_curl]: no command when [command] is
    missing or falsy, no url when the command is parsed and holds no url
    token, and valid when it is parsed and its url is a token that begins
    with [http]. *)
Theorem validate_curl_answers (data : value) (answer : response) :
  validate_route data = Ok answer ->
  exists command,
    get data "command" (VStr EmptyString) = Ok command
    /\ ((truthy command = false /\ answer = (error "No cURL command provided", 400))
        \/ (exists s d,
               command = VStr s /\ parse s = Ok d /\ Details.url d = None
               /\ answer = (error "URL not found", 400))
        \/ (exists s d u,
               command = VStr s /\ parse s = Ok d /\ Details.url d = Some u
               /\ Str.startswith u "http" = true
               /\ answer = (Json (VDict [("message", VStr "cURL command is valid!")]), 200))).
Proof.
  unfold validate_curl. intros H.
  destruct (get data "command" (VStr EmptyString)) as [command|] eqn:Ec;
    cbn [bind] in H; [|discriminate].
  exists command. split; [reflexivity|].
  destruct (truthy command) eqn:Et; cbn [negb] in H.
  2:{ left. inversion H. auto. }
  right. destruct command; try discriminate.
  destruct (parse s) as [d|] eqn:Ep; cbn [bind] in H; [|discriminate].
  unfold Details.get in H. simpl in H.
  destruct (Details.url d) as [u|] eqn:Eu.
  - right. exists s, d, u.
    assert (Hu : Str.startswith u "http" = true).
    { unfold parse_curl in Ep. destruct (shlex_split s) as [ts|]; cbn [bind] in Ep;
        [|discriminate].
      unfold parse_curl_tokens in Ep. apply parse_curl_loop_url in Ep.
      rewrite Eu in Ep. symmetry in Ep. apply last_map_Some in Ep.
      unfold url_tokens in Ep. apply filter_In in Ep. apply Ep. }
    assert (Ht : Str.truthy u = true) by (destruct u; [discriminate | reflexivity]).
    cbn [truthy] in H. rewrite Ht in H. inversion H. auto.
  - left. exists s, d. inversion H. auto.
Qed.

End Routes.

Lemma generate_on_other_shapes_witness :
  generate Ref.shlex_split Ref.json_loads Ref.urlparse Ref.parse_qs (VList [])
  = Raise AttributeError
  /\ generate Ref.shlex_split Ref.json_loads Ref.urlparse Ref.parse_qs
       (VDict [("request", VList [VStr "curl https://a.example.com/x"])])
     = Ok (Document initial_spec, 200)
  /\ raises (generate Ref.shlex_split Ref.json_loads Ref.urlparse Ref.parse_qs
               (VDict [("requests", VList [VStr "curl https://a.example.com/x"; VInt 7])]))
     = true.
Proof.
  destruct (generate_on_other_shapes Ref.shlex_split Ref.json_loads Ref.urlparse Ref.parse_qs)
    as (H1 & H2 & H3).
  split; [apply H1; reflexivity|]. split; [apply H2; reflexivity|].
  apply (H3 _ [VStr "curl https://a.example.com/x"; VInt 7]); reflexivity.
Defined.

Lemma validate_curl_answers_witness :
  validate_curl Ref.shlex_split Ref.json_loads
    (VDict [("command", VStr "curl -X POST https://a.example.com/x")])
  = Ok (Json (VDict [("message", VStr "cURL command is valid!")]), 200)
  /\ exists command,
      get (VDict [("command", VStr "curl -X POST https://a.example.com/x")]) "command"
        (VStr EmptyString) = Ok command
      /\ truthy command = true.
Proof.
  split; [vm_compute; reflexivity|].
  destruct (@validate_curl_answers Ref.shlex_split Ref.json_loads
              (VDict [("command", VStr "curl -X POST https://a.example.com/x")])
              (Json (VDict [("message", VStr "cURL command is valid!")]), 200))
    as (command & Hc & _).
  - vm_compute. reflexivity.
  - exists command. split; [exact Hc|]. vm_compute in Hc. inversion Hc. reflexivity.
Defined.

(* ================================================================= *)
(** ** More about the collection converter *)

Lemma server_urls_entries urls : server_urls (List.map server_entry urls) = List.map VStr urls.
Proof.
  unfold server_urls. rewrite map_map. apply map_ext. intros u. reflexivity.
Qed.

Lemma is_str_absent s urls :
  existsb (fun x => is_str x s) (List.map VStr urls) = false -> ~ In s urls.
Proof.
  induction urls as [|u urls IH]; [tauto|].
  cbn [List.map existsb is_str]. intros H. apply orb_false_iff in H. destruct H as [H1 H2].
  intros [->|Hin]; [rewrite String.eqb_refl in H1; discriminate | exact (IH H2 Hin)].
Qed.

Lemma postman_header_steps_other hs :
  forall operation operation' k,
    k <> "parameters" ->
    postman_header_steps hs operation = Ok operation' ->
    dict_get operation' k = dict_get operation k.
Proof.
  induction hs as [|h hs IH]; intros operation operation' k Hk H.
  - inversion H. reflexivity.
  - cbn [postman_header_steps] in H. unbind_as H operation1 E.
    rewrite (IH operation1 operation' k Hk H).
    unfold postman_header_step in E. unbind_as E key Ekey.
    destruct (truthy key); [|inversion E; reflexivity].
    unbind_as E lowered El. destruct (negb _); [|inversion E; reflexivity].
    unbind_as E example Ee. inversion E. apply append_parameter_other, Hk.
Qed.

Lemma startswith_slash r : Str.startswith (Str.f ["/"; r]) "/" = true.
Proof. unfold Str.startswith, Str.f. simpl. destruct r; reflexivity. Qed.

Section ConverterInvariants.

Variable json_loads : string -> result value.
Variable urlparse : string -> result Url.t.
Variable py_str : value -> string.

Lemma add_server_distinct raw_url urls servers1 :
  NoDup urls ->
  add_server urlparse raw_url (List.map server_entry urls) = Ok servers1 ->
  exists urls1, servers1 = List.map server_entry urls1 /\ NoDup urls1.
Proof.
  intros Hnd H. unfold add_server in H.
  destruct (truthy raw_url); [|inversion H; exists urls; auto].
  unbind_as H parsed_url E.
  set (server_url := Str.f [Url.scheme parsed_url; "://"; Url.netloc parsed_url]) in *.
  destruct (Str.truthy server_url); cbn [andb] in H; [|inversion H; exists urls; auto].
  rewrite server_urls_entries in H.
  destruct (existsb (fun x => is_str x server_url) (List.map VStr urls)) eqn:Ex;
    cbn [negb] in H; inversion H; [exists urls; auto|].
  exists (urls ++ [server_url])%list. split.
  - rewrite map_app. reflexivity.
  - apply NoDup_app; [exact Hnd | repeat constructor; simpl; tauto|].
    intros x Hx [<-|[]]. exact (is_str_absent _ _ Ex Hx).
Qed.

(** Everything one item does to the document. *)
Lemma postman_item_effect idx item o o' :
  postman_item json_loads urlparse py_str idx item o = Ok o' ->
  o' = o
  \/ exists raw_url path method operation summary schemas1 servers1,
      Str.startswith path "/" = true
      /\ Str.lower method = method
      /\ add_server urlparse raw_url (servers o) = Ok servers1
      /\ dict_get operation "summary" = Some summary
      /\ dict_get operation "responses"
         = Some (VDict [("200", VDict [("description", VStr "Successful response")])])
      /\ dict_get operation "operationId" = None
      /\ o' = mk_spec (openapi o) (info o) servers1
                (set_operation (paths o) path method (VDict operation))
                schemas1 (securitySchemes o).
Proof.
  intros H. unfold postman_item in H.
  unbind_as H request_data Erequest.
  destruct (negb (truthy request_data)); [inversion H; left; reflexivity|].
  right.
  unbind_as H url_info Eurl.
  unbind_as H located Elocated. destruct located as [[raw_url path] query_params].
  unbind_as H m Em.
  unbind_as H method Emethod.
  unbind_as H summary Esummary.
  unbind_as H servers1 Eservers.
  unbind_as H operation1 Equery.
  unbind_as H operation2 Eheaders.
  unbind_as H stored Ebody. destruct stored as [schemas1 operation].
  inversion H; subst o'.
  exists raw_url, path, method, operation, summary, schemas1, servers1.
  assert (Hpath : Str.startswith path "/" = true).
  { unfold locate in Elocated. destruct (isinstance url_info Tdict).
    - unbind_as Elocated raw Eraw. unbind_as Elocated segments Eseg.
      unbind_as Elocated joined Ejoin. unbind_as Elocated q Equery0.
      inversion Elocated; subst. apply startswith_slash.
    - inversion Elocated; subst. reflexivity. }
  assert (Hmethod : Str.lower method = method).
  { destruct m; try discriminate. inversion Emethod. apply lower_idempotent. }
  assert (Hother : forall k, k <> "parameters" -> k <> "requestBody" ->
             dict_get operation k
             = dict_get [("summary", summary);
                         ("responses",
                          VDict [("200",
                                  VDict [("description", VStr "Successful response")])])] k).
  { intros k Hk1 Hk2.
    assert (H3 : dict_get operation k = dict_get operation2 k).
    { unfold postman_add_body in Ebody. unbind_as Ebody body Eb. unbind_as Ebody is_raw Er.
      destruct is_raw.
      - unbind_as Ebody raw Eraw.
        destruct (json_loads_value json_loads raw); inversion Ebody;
          apply dict_get_set_other; congruence.
      - inversion Ebody. reflexivity. }
    assert (H2 : dict_get operation2 k = dict_get operation1 k).
    { unfold postman_add_headers in Eheaders. unbind_as Eheaders headers Eh.
      unbind_as Eheaders hs Ehs. apply (postman_header_steps_other hs _ Hk1 Eheaders). }
    assert (H1 : dict_get operation1 k
                 = dict_get [("summary", summary);
                             ("responses",
                              VDict [("200",
                                      VDict [("description",
                                              VStr "Successful response")])])] k).
    { unfold postman_add_query in Equery. destruct (truthy query_params).
      - unbind_as Equery qs Eqs. unbind_as Equery entries Ee.
        injection Equery as Heq. rewrite <- Heq.
        change (dict_get (dict_set [("summary", summary);
                                    ("responses",
                                     VDict [("200",
                                             VDict [("description",
                                                     VStr "Successful response")])])]
                            "parameters" (VList entries)) k
                = dict_get [("summary", summary);
                            ("responses",
                             VDict [("200",
                                     VDict [("description",
                                             VStr "Successful response")])])] k).
        apply dict_get_set_other. congruence.
      - inversion Equery. reflexivity. }
    rewrite H3, H2, H1. reflexivity. }
  repeat split; try assumption;
    rewrite Hother by discriminate; reflexivity.
Qed.

Lemma postman_items_invariant (P : openapi_spec -> Prop) :
  (forall idx item o o',
      P o -> postman_item json_loads urlparse py_str idx item o = Ok o' -> P o') ->
  forall items idx o o',
    P o -> postman_items json_loads urlparse py_str idx items o = Ok o' -> P o'.
Proof.
  intros Hstep items.
  induction items as [|item items IH]; intros idx o o' HP H.
  - inversion H; subst. exact HP.
  - cbn [postman_items] in H. unbind_as H o1 E.
    apply (IH (S idx) o1 o'); [eapply Hstep; eauto | exact H].
Qed.

(** A converted collection: every operation is stored under a path that
    begins with a slash and a method in lower case, and carries a summary
    and the answer [200] but no [operationId]; no server occurs twice; and
    there are no security schemes. *)
Theorem converted_collection_shape (data : value) (o : openapi_spec) :
  postman_to_openapi json_loads urlparse py_str data = (Document o, 200) ->
  (forall path method operation,
      lookup_operation o path method = Some operation ->
      Str.startswith path "/" = true
      /\ Str.lower method = method
      /\ exists fields summary,
          operation = VDict fields
          /\ dict_get fields "summary" = Some summary
          /\ dict_get fields "responses"
             = Some (VDict [("200", VDict [("description", VStr "Successful response")])])
          /\ dict_get fields "operationId" = None)
  /\ (exists urls, servers o = List.map server_entry urls /\ NoDup urls)
  /\ securitySchemes o = []
  /\ openapi o = "3.0.0".
Proof.
  unfold postman_to_openapi. intros H.
  destruct (postman_convert json_loads urlparse py_str data) as [r|] eqn:E;
    [subst r | discriminate].
  unfold postman_convert in E. cbv zeta in E. unbind_as E collection Ec.
  destruct (negb (truthy collection)); [discriminate|].
  unbind_as E info1 E1. unbind_as E title E2.
  unbind_as E version E4. unbind_as E item E5. unbind_as E items E6.
  unbind_as E o1 E7. inversion E; subst o1. clear E.
  apply (@postman_items_invariant
           (fun o =>
              (forall path method operation,
                  lookup (paths o) path method = Some operation ->
                  Str.startswith path "/" = true
                  /\ Str.lower method = method
                  /\ exists fields summary,
                      operation = VDict fields
                      /\ dict_get fields "summary" = Some summary
                      /\ dict_get fields "responses"
                         = Some (VDict [("200",
                                         VDict [("description",
                                                 VStr "Successful response")])])
                      /\ dict_get fields "operationId" = None)
              /\ (exists urls, servers o = List.map server_entry urls /\ NoDup urls)
              /\ securitySchemes o = []
              /\ openapi o = "3.0.0")) with (3 := E7).
  - intros idx it o0 o0' (HO & (urls & Hs & Hnd) & HS & HV) Hi.
    destruct (postman_item_effect idx it o0 Hi)
      as [->|(raw_url & path0 & method0 & operation0 & summary & schemas1 & servers1
              & Hp & Hm & Hsrv & Hsum & Hresp & Hid & ->)].
    { split; [exact HO|]. split; [exists urls; auto|]. auto. }
    cbn [paths servers securitySchemes openapi].
    split; [|split; [|auto]].
    + intros path method operation Hl. rewrite lookup_set_operation in Hl.
      destruct (String.eqb path0 path && String.eqb method0 method) eqn:Eq.
      * apply andb_prop in Eq. destruct Eq as [Eq1 Eq2].
        apply String.eqb_eq in Eq1. apply String.eqb_eq in Eq2. subst path method.
        inversion Hl; subst operation.
        split; [exact Hp|]. split; [exact Hm|].
        exists operation0, summary. auto.
      * apply HO, Hl.
    + rewrite Hs in Hsrv. apply (add_server_distinct raw_url Hnd Hsrv).
  - split; [intros path method operation Hl; discriminate|].
    split; [exists []; split; [reflexivity | constructor]|]. auto.
Qed.

(** The converter on a collection that is missing or empty, and on one
    with no item: the first is refused as a client error, the second gives
    a document with no path, titled by the name of the collection, in the
    version the collection names or [1.0.0]. *)
Theorem converter_edge_answers :
  (forall data collection,
      get data "collection" (VDict []) = Ok collection ->
      truthy collection = false ->
      postman_to_openapi json_loads urlparse py_str data
      = (error "Invalid or empty Postman collection", 400))
  /\ (forall data collection information,
         dict_get data "collection" = Some (VDict collection) ->
         collection <> [] ->
         dict_get collection "info" = Some (VDict information) ->
         dict_get collection "item" = None ->
         postman_to_openapi json_loads urlparse py_str (VDict data)
         = (Document
              (mk_spec "3.0.0"
                 [("title",
                   dict_get_default information "name" (VStr "Converted Postman Collection"));
                  ("version", dict_get_default information "version" (VStr "1.0.0"))]
                 [] [] [] []), 200)).
Proof.
  split.
  - intros data collection Hc Ht. unfold postman_to_openapi, postman_convert.
    rewrite Hc. cbn [bind]. rewrite Ht. reflexivity.
  - intros data collection information Hc Hne Hinfo Hitem.
    unfold postman_to_openapi, postman_convert, get, dict_get_default.
    rewrite Hc. cbn [bind].
    destruct collection as [|kv collection]; [contradiction|].
    cbn [truthy negb]. rewrite Hinfo. cbn [bind]. rewrite Hitem. reflexivity.
Qed.

End ConverterInvariants.

Lemma converted_collection_shape_witness :
  exists o fields,
    convert (VDict [("collection", VDict [("item", VList [sample_item])])]) = (Document o, 200)
    /\ lookup_operation o "/users" "get" = Some (VDict fields)
    /\ dict_get fields "operationId" = None
    /\ openapi o = "3.0.0".
Proof.
  eexists.
  match goal with
  | |- exists fields, ?c = (Document ?o, 200) /\ _ =>
    assert (E : c = (Document o, 200)) by (vm_compute; reflexivity)
  end.
  match type of E with
  | _ = (Document ?o, 200) =>
    assert (L : exists x, lookup_operation o "/users" "get" = Some x)
      by (eexists; vm_compute; reflexivity)
  end.
  destruct L as [x L].
  destruct (@converted_collection_shape Ref.json_loads Ref.urlparse Ref.py_str _ _ E)
    as (H1 & _ & _ & H4).
  destruct (H1 "/users" "get" x L) as (_ & _ & fields & summary & -> & _ & _ & Hid).
  exists fields. split; [exact E|]. split; [exact L|]. split; [exact Hid | exact H4].
Defined.

Lemma converter_edge_answers_witness :
  convert (VDict []) = (error "Invalid or empty Postman collection", 400)
  /\ convert (VDict [("collection", VDict [("info", VDict [("name", VStr "Shop")])])])
     = (Document
          (mk_spec "3.0.0" [("title", VStr "Shop"); ("version", VStr "1.0.0")] [] [] [] []),
        200).
Proof.
  destruct (converter_edge_answers Ref.json_loads Ref.urlparse Ref.py_str) as [H1 H2].
  split.
  - apply (H1 (VDict []) (VDict [])); reflexivity.
  - apply (H2 [("collection", VDict [("info", VDict [("name", VStr "Shop")])])]
              [("info", VDict [("name", VStr "Shop")])] [("name", VStr "Shop")]);
      try reflexivity. discriminate.
Defined.
